(** * seqgen3.c: the timer-driven multi-rate sequencer

    A shallow embedding of [seqgen3.c] (Course 2, assignment 1): the
    SIGALRM handler [Sequencer], the three worker threads [Service_1],
    [Service_2], [Service_3] and the set-up performed by [main].

    - C integers are values of [Z]; the wrap-around of
      [unsigned long long] is written out ([wrap64]), [int] flags are
      tested as C tests them ([truthy]).
    - The global variables of the translation unit are the fields of the
      record [globals]; a C function that reads and writes them is a
      computation in the state-and-output monad [M].
    - Calls that leave the program (sem_post, timer_settime, printf,
      syslog, ...) are recorded, in program order, as [event]s.
    - What the operating system decides is an input: the results of the
      calls of [main] that can fail ([os]), whether something sets
      [abortTest] ([environment]), and the interleaving of the handler and
      the threads ([choice]).
    - A sem_wait that the handler has interrupted is restarted when the
      handler returns, for the handler is installed by signal() with
      _GNU_SOURCE defined ([signal_flags], [deliver]).  The schedules of
      [step] moreover have the choice [Interrupt], a wait that returns
      EINTR, so that what holds of every schedule also holds where a
      handler is installed without SA_RESTART.
    - Clock readings are integers handed in from outside; the conversion to
      seconds as a [double] is not modelled.  The count of a semaphore is
      not bounded by SEM_VALUE_MAX.  Memory is sequentially consistent. *)

From Stdlib Require Import String Ascii DecimalString ZArith List Bool Lia.
Import ListNotations.
Open Scope Z_scope.

(** ** C scalars *)

Definition TRUE : Z := 1.
Definition FALSE : Z := 0.

(** The truth value of a C scalar used as a condition. *)
Definition truthy (z : Z) : bool := negb (z =? 0).

Definition wrap64 (z : Z) : Z := z mod 2 ^ 64.

Definition NUM_CPU_CORES : Z := 4.
Definition NUM_THREADS : Z := 3.
Definition LCM_PERIOD : Z := 30.

(** ** Timer values *)

Record timespec := { tv_sec : Z; tv_nsec : Z }.
Record itimerspec := { it_interval : timespec; it_value : timespec }.

Definition timespec_is_zero (t : timespec) : bool :=
  (tv_sec t =? 0) && (tv_nsec t =? 0).

Definition zero_timespec : timespec := {| tv_sec := 0; tv_nsec := 0 |}.

Definition zero_itimerspec : itimerspec :=
  {| it_interval := zero_timespec; it_value := zero_timespec |}.

(** ** Services, their semaphores and flags *)

Inductive service := S1 | S2 | S3.

Definition service_eqb (a b : service) : bool :=
  match a, b with
  | S1, S1 | S2, S2 | S3, S3 => true
  | _, _ => false
  end.

Definition services : list service := [S1; S2; S3].

(** The place a [sem_post] is called from: the release tests at the top of
    [Sequencer], or its shutdown block. *)
Inductive site := Release | Shutdown.

Definition site_eqb (a b : site) : bool :=
  match a, b with
  | Release, Release | Shutdown, Shutdown => true
  | _, _ => false
  end.

(** Scheduling attributes of a thread to be created ([pthread_attr_t]).
    [attr_cpus] is the affinity mask, [None] while none has been set. *)
Record pthread_attr := {
  attr_inheritsched : Z;
  attr_policy : Z;
  attr_cpus : option Z;
  attr_priority : Z
}.

Inductive event :=
| Sem_init (s : service)
| Sem_post (s : service) (w : site)
| Sem_wait (s : service) (result : Z)
| Report (s : service) (count now cpu : Z)
| Sched_setscheduler (policy priority : Z)
| Perror (msg : string)
| Printf (format : string) (args : list Z)
| Pthread_create (s : service) (a : pthread_attr)
| Timer_create
| Signal (signum : Z)
| Timer_settime (v : itimerspec).

(** ** Global variables

    [last_itime] is only ever written (as the old-value argument of
    timer_settime) and is left out.  [timer_1] is the state of the POSIX
    timer behind the handle of that name: [None] until timer_create
    succeeds, afterwards its current setting. *)

Record globals := {
  abortTest : Z;
  abortS1 : Z;
  abortS2 : Z;
  abortS3 : Z;
  semS1 : Z;
  semS2 : Z;
  semS3 : Z;
  sequencePeriods : Z;
  timer_1 : option itimerspec;
  itime : itimerspec;
  seqCnt : Z
}.

Definition sem (s : service) (g : globals) : Z :=
  match s with S1 => semS1 g | S2 => semS2 g | S3 => semS3 g end.

Definition abortS (s : service) (g : globals) : Z :=
  match s with S1 => abortS1 g | S2 => abortS2 g | S3 => abortS3 g end.

Definition set_sem (s : service) (v : Z) (g : globals) : globals :=
  match s with
  | S1 => {| abortTest := abortTest g; abortS1 := abortS1 g; abortS2 := abortS2 g;
             abortS3 := abortS3 g; semS1 := v; semS2 := semS2 g; semS3 := semS3 g;
             sequencePeriods := sequencePeriods g; timer_1 := timer_1 g;
             itime := itime g; seqCnt := seqCnt g |}
  | S2 => {| abortTest := abortTest g; abortS1 := abortS1 g; abortS2 := abortS2 g;
             abortS3 := abortS3 g; semS1 := semS1 g; semS2 := v; semS3 := semS3 g;
             sequencePeriods := sequencePeriods g; timer_1 := timer_1 g;
             itime := itime g; seqCnt := seqCnt g |}
  | S3 => {| abortTest := abortTest g; abortS1 := abortS1 g; abortS2 := abortS2 g;
             abortS3 := abortS3 g; semS1 := semS1 g; semS2 := semS2 g; semS3 := v;
             sequencePeriods := sequencePeriods g; timer_1 := timer_1 g;
             itime := itime g; seqCnt := seqCnt g |}
  end.

Definition set_abortS (s : service) (v : Z) (g : globals) : globals :=
  match s with
  | S1 => {| abortTest := abortTest g; abortS1 := v; abortS2 := abortS2 g;
             abortS3 := abortS3 g; semS1 := semS1 g; semS2 := semS2 g; semS3 := semS3 g;
             sequencePeriods := sequencePeriods g; timer_1 := timer_1 g;
             itime := itime g; seqCnt := seqCnt g |}
  | S2 => {| abortTest := abortTest g; abortS1 := abortS1 g; abortS2 := v;
             abortS3 := abortS3 g; semS1 := semS1 g; semS2 := semS2 g; semS3 := semS3 g;
             sequencePeriods := sequencePeriods g; timer_1 := timer_1 g;
             itime := itime g; seqCnt := seqCnt g |}
  | S3 => {| abortTest := abortTest g; abortS1 := abortS1 g; abortS2 := abortS2 g;
             abortS3 := v; semS1 := semS1 g; semS2 := semS2 g; semS3 := semS3 g;
             sequencePeriods := sequencePeriods g; timer_1 := timer_1 g;
             itime := itime g; seqCnt := seqCnt g |}
  end.

Definition set_abortTest (v : Z) (g : globals) : globals :=
  {| abortTest := v; abortS1 := abortS1 g; abortS2 := abortS2 g;
     abortS3 := abortS3 g; semS1 := semS1 g; semS2 := semS2 g; semS3 := semS3 g;
     sequencePeriods := sequencePeriods g; timer_1 := timer_1 g;
     itime := itime g; seqCnt := seqCnt g |}.

Definition set_sequencePeriods (v : Z) (g : globals) : globals :=
  {| abortTest := abortTest g; abortS1 := abortS1 g; abortS2 := abortS2 g;
     abortS3 := abortS3 g; semS1 := semS1 g; semS2 := semS2 g; semS3 := semS3 g;
     sequencePeriods := v; timer_1 := timer_1 g;
     itime := itime g; seqCnt := seqCnt g |}.

Definition set_timer_1 (v : option itimerspec) (g : globals) : globals :=
  {| abortTest := abortTest g; abortS1 := abortS1 g; abortS2 := abortS2 g;
     abortS3 := abortS3 g; semS1 := semS1 g; semS2 := semS2 g; semS3 := semS3 g;
     sequencePeriods := sequencePeriods g; timer_1 := v;
     itime := itime g; seqCnt := seqCnt g |}.

Definition set_itime (v : itimerspec) (g : globals) : globals :=
  {| abortTest := abortTest g; abortS1 := abortS1 g; abortS2 := abortS2 g;
     abortS3 := abortS3 g; semS1 := semS1 g; semS2 := semS2 g; semS3 := semS3 g;
     sequencePeriods := sequencePeriods g; timer_1 := timer_1 g;
     itime := v; seqCnt := seqCnt g |}.

Definition set_seqCnt (v : Z) (g : globals) : globals :=
  {| abortTest := abortTest g; abortS1 := abortS1 g; abortS2 := abortS2 g;
     abortS3 := abortS3 g; semS1 := semS1 g; semS2 := semS2 g; semS3 := semS3 g;
     sequencePeriods := sequencePeriods g; timer_1 := timer_1 g;
     itime := itime g; seqCnt := v |}.

(** ** A state-and-output monad for code over the globals *)

Definition M (A : Type) : Type := globals -> A * globals * list event.

Definition ret {A} (a : A) : M A := fun g => (a, g, []).

Definition bind {A B} (m : M A) (k : A -> M B) : M B :=
  fun g =>
    let '(a, g1, o1) := m g in
    let '(b, g2, o2) := k a g1 in
    (b, g2, o1 ++ o2).

Declare Scope seq_scope.
Delimit Scope seq_scope with seq.
Notation "x <- m ;; k" := (bind m (fun x => k))
  (at level 61, m at next level, right associativity) : seq_scope.
Notation "m ;; k" := (bind m (fun _ => k))
  (at level 61, right associativity) : seq_scope.

Definition load {A} (f : globals -> A) : M A := fun g => (f g, g, []).
Definition store (upd : globals -> globals) : M unit := fun g => (tt, upd g, []).
Definition emit (e : event) : M unit := fun g => (tt, g, [e]).
Definition when (c : bool) (m : M unit) : M unit := if c then m else ret tt.

Definition exec {A} (m : M A) (g : globals) : globals := snd (fst (m g)).
Definition output {A} (m : M A) (g : globals) : list event := snd (m g).

(** ** Library calls made by the handler *)

(** sem_post: one more token on the semaphore. *)
Definition sem_post (s : service) (w : site) : M unit :=
  (v <- load (sem s) ;;
   store (set_sem s (v + 1)) ;;
   emit (Sem_post s w))%seq.

(** timer_settime(timer_1, 0, &itime, &last_itime): an existing timer takes
    the setting held in [itime]; on an invalid handle the call fails and
    changes nothing.  The result is not looked at by the caller. *)
Definition timer_settime : M unit :=
  (v <- load itime ;;
   t <- load timer_1 ;;
   match t with
   | Some _ => store (set_timer_1 (Some v))
   | None => ret tt
   end ;;
   emit (Timer_settime v))%seq.

(** The timer delivers SIGALRM only while its [it_value] is not zero. *)
Definition armed (g : globals) : bool :=
  match timer_1 g with
  | Some v => negb (timespec_is_zero (it_value v))
  | None => false
  end.

(** ** Sequencer *)

Definition period (s : service) : Z :=
  match s with S1 => 2 | S2 => 10 | S3 => 15 end.

Definition set_tv_sec (v : Z) (t : timespec) : timespec :=
  {| tv_sec := v; tv_nsec := tv_nsec t |}.

Definition set_tv_nsec (v : Z) (t : timespec) : timespec :=
  {| tv_sec := tv_sec t; tv_nsec := v |}.

(** [itime.it_interval.f = ...] and [itime.it_value.f = ...] *)
Definition itime_it_interval (f : timespec -> timespec) (g : globals) : globals :=
  set_itime {| it_interval := f (it_interval (itime g));
               it_value := it_value (itime g) |} g.

Definition itime_it_value (f : timespec -> timespec) (g : globals) : globals :=
  set_itime {| it_interval := it_interval (itime g);
               it_value := f (it_value (itime g)) |} g.


Definition Sequencer (id : Z) : M unit :=
  (c <- load seqCnt ;;
   when (c mod 2 =? 0) (sem_post S1 Release) ;;
   c <- load seqCnt ;;
   when (c mod 10 =? 0) (sem_post S2 Release) ;;
   c <- load seqCnt ;;
   when (c mod 15 =? 0) (sem_post S3 Release) ;;
   c <- load seqCnt ;;
   store (set_seqCnt (wrap64 (c + 1))) ;;
   a <- load abortTest ;;
   c <- load seqCnt ;;
   p <- load sequencePeriods ;;
   when (truthy a || (c >=? p))
     (store (itime_it_interval (set_tv_sec 0)) ;;
      store (itime_it_interval (set_tv_nsec 0)) ;;
      store (itime_it_value (set_tv_sec 0)) ;;
      store (itime_it_value (set_tv_nsec 0)) ;;
      timer_settime ;;
      a <- load abortTest ;;
      c <- load seqCnt ;;
      p <- load sequencePeriods ;;
      emit (Printf "Disabling sequencer interval timer with abort=%d and %llu of %d\n"%string
              [a; c; p]) ;;
      sem_post S1 Shutdown ;; sem_post S2 Shutdown ;; sem_post S3 Shutdown ;;
      store (set_abortS S1 TRUE) ;;
      store (set_abortS S2 TRUE) ;;
      store (set_abortS S3 TRUE)))%seq.

(** ** The timer-driven run

    While the timer is armed it delivers one SIGALRM per base tick and the
    handler runs to completion.  Nothing in the program writes [abortTest];
    an [environment] says before which ticks (numbered from 0, in order of
    delivery) something outside the program sets it. *)

Definition SIGALRM : Z := 14.

Definition environment := nat -> bool.

Definition never : environment := fun _ => false.
Definition abort_before (k : nat) : environment := fun j => Nat.eqb j k.

Definition external (env : environment) (k : nat) (g : globals) : globals :=
  if env k then set_abortTest TRUE g else g.

(** [run env fuel k g]: the outputs of the successive handler invocations,
    tick [k] first, and the globals when the timer has stopped (or [fuel]
    ticks have been delivered). *)
Fixpoint run (env : environment) (fuel : nat) (k : nat) (g : globals)
  : list (list event) * globals :=
  match fuel with
  | O => ([], g)
  | S fuel' =>
      if armed g then
        let g1 := external env k g in
        let '(ticks, g') := run env fuel' (S k) (exec (Sequencer SIGALRM) g1) in
        (output (Sequencer SIGALRM) g1 :: ticks, g')
      else ([], g)
  end.

(** *** Reading a handler output *)

Definition event_is_post (s : service) (w : site) (e : event) : bool :=
  match e with
  | Sem_post s' w' => service_eqb s s' && site_eqb w w'
  | _ => false
  end.

Definition event_is_settime (e : event) : bool :=
  match e with Timer_settime _ => true | _ => false end.

(** Number of tokens posted to [s] from call site [w] in one handler output. *)
Definition posts (s : service) (w : site) (o : list event) : Z :=
  Z.of_nat (length (filter (event_is_post s w) o)).

(** ... and over a sequence of ticks. *)
Definition total_posts (s : service) (w : site) (ticks : list (list event)) : Z :=
  fold_right (fun o acc => posts s w o + acc) 0 ticks.

(** The handler went through its shutdown block. *)
Definition terminating (o : list event) : bool := existsb event_is_settime o.

(** The ticks (numbered from [k]) at which [s] was released by the modulo
    tests. *)
Fixpoint release_ticks (s : service) (k : Z) (ticks : list (list event)) : list Z :=
  match ticks with
  | [] => []
  | o :: rest =>
      if 0 <? posts s Release o
      then k :: release_ticks s (k + 1) rest
      else release_ticks s (k + 1) rest
  end.

(** The ticks (numbered from [k]) at which the shutdown block ran. *)
Fixpoint terminating_ticks (k : Z) (ticks : list (list event)) : list Z :=
  match ticks with
  | [] => []
  | o :: rest =>
      if terminating o
      then k :: terminating_ticks (k + 1) rest
      else terminating_ticks (k + 1) rest
  end.

(** * The set-up performed by [main] *)

(** ** Scheduling constants, CPU sets and C [int] arithmetic *)

Definition SCHED_OTHER : Z := 0.
Definition SCHED_FIFO : Z := 1.
Definition SCHED_RR : Z := 2.
Definition PTHREAD_INHERIT_SCHED : Z := 0.
Definition PTHREAD_EXPLICIT_SCHED : Z := 1.

(** [cpu_set_t] is a bit mask: bit [c] stands for core [c]. *)
Definition CPU_ZERO : Z := 0.
Definition CPU_SET (cpu set : Z) : Z := Z.lor set (Z.shiftl 1 cpu).
Definition CPU_ISSET (cpu set : Z) : bool := Z.testbit set cpu.
Definition CPU_SETSIZE : Z := 1024.

Definition indices (n : Z) : list Z := map Z.of_nat (seq 0 (Z.to_nat n)).

Definition CPU_COUNT (set : Z) : Z :=
  Z.of_nat (length (filter (fun c => CPU_ISSET c set) (indices CPU_SETSIZE))).

(** Subtraction on [int], wrapping to 32 bits. *)
Definition wrap_int (z : Z) : Z := (z + 2 ^ 31) mod 2 ^ 32 - 2 ^ 31.
Definition int_sub (a b : Z) : Z := wrap_int (a - b).

(** ** Threads and the process *)

Record thread := {
  entry : service;
  th_policy : Z;
  th_priority : Z;
  th_cpus : Z
}.

(** The globals, the scheduling state of the main thread (which the handler
    runs in) and the threads created so far, oldest first. *)
Record process := {
  vars : globals;
  policy : Z;
  priority : Z;
  cpus : Z;
  threads : list thread
}.

Definition with_vars (f : globals -> globals) (p : process) : process :=
  {| vars := f (vars p); policy := policy p; priority := priority p;
     cpus := cpus p; threads := threads p |}.

Definition with_sched (pol prio : Z) (p : process) : process :=
  {| vars := vars p; policy := pol; priority := prio;
     cpus := cpus p; threads := threads p |}.

Definition with_thread (t : thread) (p : process) : process :=
  {| vars := vars p; policy := policy p; priority := priority p;
     cpus := cpus p; threads := threads p ++ [t] |}.

(** What the operating system answers to [main]: the scheduling state the
    process starts with, and the result of every call that can fail. *)
Record os := {
  boot_policy : Z;
  boot_priority : Z;
  boot_cpus : Z;
  sem_init_result : service -> Z;
  priority_min : Z -> Z;
  priority_max : Z -> Z;
  sched_setscheduler_result : Z;
  pthread_create_result : service -> Z;
  timer_create_result : Z
}.

(** ** Code that can leave through [exit] *)

Inductive outcome (A : Type) :=
| Returns (a : A)
| Exits (status : Z).
Arguments Returns {A} a.
Arguments Exits {A} status.

Definition Proc (A : Type) : Type := process -> outcome A * process * list event.

Definition pret {A} (a : A) : Proc A := fun p => (Returns a, p, []).

Definition pbind {A B} (m : Proc A) (k : A -> Proc B) : Proc B :=
  fun p =>
    let '(r, p1, o1) := m p in
    match r with
    | Returns a => let '(r2, p2, o2) := k a p1 in (r2, p2, o1 ++ o2)
    | Exits st => (Exits st, p1, o1)
    end.

Declare Scope proc_scope.
Delimit Scope proc_scope with proc.
Notation "x <- m ;; k" := (pbind m (fun x => k))
  (at level 61, m at next level, right associativity) : proc_scope.
Notation "m ;; k" := (pbind m (fun _ => k))
  (at level 61, right associativity) : proc_scope.

Definition exit {A} (status : Z) : Proc A := fun p => (Exits status, p, []).
Definition say (e : event) : Proc unit := fun p => (Returns tt, p, [e]).
Definition printf (format : string) (args : list Z) : Proc unit :=
  say (Printf format args).
Definition perror (msg : string) : Proc unit := say (Perror msg).

(** Code over the globals alone, run inside the process. *)
Definition lift {A} (m : M A) : Proc A :=
  fun p => let '(a, g, o) := m (vars p) in
           (Returns a, with_vars (fun _ => g) p, o).

(** ** Library calls made by [main] *)

(** sem_init(&sem, 0, 0) *)
Definition sem_init (w : os) (s : service) : Proc Z :=
  fun p =>
    let r := sem_init_result w s in
    (Returns r, if r =? 0 then with_vars (set_sem s 0) p else p, [Sem_init s]).

Definition sched_setscheduler (w : os) (pol prio : Z) : Proc Z :=
  fun p =>
    let r := sched_setscheduler_result w in
    (Returns r, if r =? 0 then with_sched pol prio p else p,
     [Sched_setscheduler pol prio]).

Definition sched_getscheduler : Proc Z := fun p => (Returns (policy p), p, []).

Definition pthread_attr_init : pthread_attr :=
  {| attr_inheritsched := PTHREAD_INHERIT_SCHED; attr_policy := SCHED_OTHER;
     attr_cpus := None; attr_priority := 0 |}.

Definition pthread_attr_setinheritsched (a : pthread_attr) (v : Z) : pthread_attr :=
  {| attr_inheritsched := v; attr_policy := attr_policy a;
     attr_cpus := attr_cpus a; attr_priority := attr_priority a |}.

Definition pthread_attr_setschedpolicy (a : pthread_attr) (v : Z) : pthread_attr :=
  {| attr_inheritsched := attr_inheritsched a; attr_policy := v;
     attr_cpus := attr_cpus a; attr_priority := attr_priority a |}.

Definition pthread_attr_setaffinity_np (a : pthread_attr) (set : Z) : pthread_attr :=
  {| attr_inheritsched := attr_inheritsched a; attr_policy := attr_policy a;
     attr_cpus := Some set; attr_priority := attr_priority a |}.

(** pthread_attr_setschedparam refuses (and leaves the attribute as it is) a
    priority outside the range of the attribute's policy.  [main] does not
    look at the result. *)
Definition pthread_attr_setschedparam (w : os) (a : pthread_attr) (prio : Z)
  : pthread_attr :=
  let lo := priority_min w (attr_policy a) in
  let hi := priority_max w (attr_policy a) in
  if (0 <=? lo) && (0 <=? hi) && (lo <=? prio) && (prio <=? hi)
  then {| attr_inheritsched := attr_inheritsched a; attr_policy := attr_policy a;
          attr_cpus := attr_cpus a; attr_priority := prio |}
  else a.

(** pthread_create: on success the new thread runs the entry point of [s]
    with the scheduling its attribute asks for; what the attribute leaves
    open is inherited from the creating thread. *)
Definition new_thread (s : service) (a : pthread_attr) (p : process) : thread :=
  let explicit := attr_inheritsched a =? PTHREAD_EXPLICIT_SCHED in
  {| entry := s;
     th_policy := if explicit then attr_policy a else policy p;
     th_priority := if explicit then attr_priority a else priority p;
     th_cpus := match attr_cpus a with Some c => c | None => cpus p end |}.

Definition pthread_create (w : os) (s : service) (a : pthread_attr) : Proc Z :=
  fun p =>
    let r := pthread_create_result w s in
    (Returns r, if r =? 0 then with_thread (new_thread s a p) p else p,
     [Pthread_create s a]).

(** timer_create(CLOCK_REALTIME, NULL, &timer_1): on success a disarmed
    timer that signals SIGALRM. *)
Definition timer_create (w : os) : Proc Z :=
  fun p =>
    let r := timer_create_result w in
    (Returns r,
     if r =? 0 then with_vars (set_timer_1 (Some zero_itimerspec)) p else p,
     [Timer_create]).

Definition signal (signum : Z) : Proc unit := say (Signal signum).

(** ** print_scheduler *)

Definition print_scheduler : Proc unit :=
  (schedType <- sched_getscheduler ;;
   if schedType =? SCHED_FIFO then
     printf "Pthread Policy is SCHED_FIFO\n" []
   else if schedType =? SCHED_OTHER then
     printf "Pthread Policy is SCHED_OTHER\n" [] ;; exit (-1)
   else if schedType =? SCHED_RR then
     printf "Pthread Policy is SCHED_RR\n" [] ;; exit (-1)
   else
     printf "Pthread Policy is UNKNOWN\n" [] ;; exit (-1))%proc.

(** ** main

    [main] is given in four parts, in the order of the source.  The local
    arrays [rt_sched_attr] and [rt_param] are functions of the index.  Left
    out: what precedes line 298 (clearing the log, uname, the clock
    readings and their printf), getpid and sched_getparam (whose result is
    overwritten), the scope report of lines 324-331, [threadParams] (never
    read by a service) and the join loop that [main] blocks in once the
    timer is armed. *)

Record frame := {
  threadcpu : Z;
  cpuidx : Z;
  rt_sched_attr : Z -> pthread_attr;
  rt_param : Z -> Z
}.

Definition upd {A} (f : Z -> A) (i : Z) (v : A) : Z -> A :=
  fun j => if j =? i then v else f j.

(** One iteration of the loop of lines 337-365. *)
Definition setup_attr (w : os) (rt_max_prio : Z) (f : frame) (i : Z) : frame :=
  let cpuidx := if Z.rem i 2 =? 0 then 2 else 3 in
  let threadcpu := CPU_SET cpuidx CPU_ZERO in
  let a := pthread_attr_init in
  let a := pthread_attr_setinheritsched a PTHREAD_EXPLICIT_SCHED in
  let a := pthread_attr_setschedpolicy a SCHED_FIFO in
  let a := pthread_attr_setaffinity_np a threadcpu in
  let prio := int_sub rt_max_prio i in
  let a := pthread_attr_setschedparam w a prio in
  {| threadcpu := threadcpu; cpuidx := cpuidx;
     rt_sched_attr := upd (rt_sched_attr f) i a;
     rt_param := upd (rt_param f) i prio |}.

Definition frame0 : frame :=
  {| threadcpu := 0; cpuidx := 0;
     rt_sched_attr := fun _ => pthread_attr_init; rt_param := fun _ => 0 |}.

(** Lines 374-407 for one service: the priority is set again, then the
    thread is created. *)
Definition create_service (w : os) (rt_max_prio : Z) (f : frame)
    (i : Z) (s : service) (down : Z) (failed succeeded : string) : Proc frame :=
  (let prio := int_sub rt_max_prio down in
   let a := pthread_attr_setschedparam w (rt_sched_attr f i) prio in
   rc <- pthread_create w s a ;;
   (if rc <? 0 then perror failed else printf succeeded []) ;;
   pret {| threadcpu := threadcpu f; cpuidx := cpuidx f;
           rt_sched_attr := upd (rt_sched_attr f) i a;
           rt_param := upd (rt_param f) i prio |})%proc.

Definition sem_init_or_exit (w : os) (s : service) (failed : string) : Proc unit :=
  (r <- sem_init w s ;;
   if truthy r then printf failed [] ;; exit (-1) else pret tt)%proc.

(** Lines 298-310. *)
Definition init_semaphores (w : os) : Proc unit :=
  (let allcpuset :=
     fold_left (fun set i => CPU_SET i set) (indices NUM_CPU_CORES) CPU_ZERO in
   printf "Using CPUS=%d from total available.\n" [CPU_COUNT allcpuset] ;;
   sem_init_or_exit w S1 "Failed to initialize S1 semaphore\n" ;;
   sem_init_or_exit w S2 "Failed to initialize S2 semaphore\n" ;;
   sem_init_or_exit w S3 "Failed to initialize S3 semaphore\n")%proc.

(** Lines 312-334. *)
Definition set_main_scheduler (w : os) : Proc unit :=
  (let rt_max_prio := priority_max w SCHED_FIFO in
   let rt_min_prio := priority_min w SCHED_FIFO in
   rc <- sched_setscheduler w SCHED_FIFO rt_max_prio ;;
   (if rc <? 0 then perror "main_param" else pret tt) ;;
   print_scheduler ;;
   printf "rt_max_prio=%d\n" [rt_max_prio] ;;
   printf "rt_min_prio=%d\n" [rt_min_prio])%proc.

(** Lines 337-407. *)
Definition create_services (w : os) : Proc unit :=
  (let rt_max_prio := priority_max w SCHED_FIFO in
   let f := fold_left (setup_attr w rt_max_prio) (indices NUM_THREADS) frame0 in
   printf "Service threads will run on %d CPU cores\n" [CPU_COUNT (threadcpu f)] ;;
   f <- create_service w rt_max_prio f 0 S1 1
          "pthread_create for service 1"
          "pthread_create successful for service 1\n" ;;
   f <- create_service w rt_max_prio f 1 S2 2
          "pthread_create for service 2"
          "pthread_create successful for service 2\n" ;;
   f <- create_service w rt_max_prio f 2 S3 3
          "pthread_create for service 3"
          "pthread_create successful for service 3\n" ;;
   pret tt)%proc.

(** Lines 419-440. *)
Definition start_sequencer (w : os) : Proc unit :=
  (printf "Start sequencer\n" [] ;;
   lift (store (set_sequencePeriods LCM_PERIOD)) ;;
   timer_create w ;;
   signal SIGALRM ;;
   lift (store (itime_it_interval (set_tv_sec 0))) ;;
   lift (store (itime_it_interval (set_tv_nsec 10000000))) ;;
   lift (store (itime_it_value (set_tv_sec 0))) ;;
   lift (store (itime_it_value (set_tv_nsec 10000000))) ;;
   lift timer_settime)%proc.

Definition main (w : os) : Proc unit :=
  (init_semaphores w ;;
   set_main_scheduler w ;;
   create_services w ;;
   start_sequencer w)%proc.

(** The globals as their initialisers leave them, and the process when
    [main] is entered. *)
Definition globals0 : globals :=
  {| abortTest := FALSE; abortS1 := FALSE; abortS2 := FALSE; abortS3 := FALSE;
     semS1 := 0; semS2 := 0; semS3 := 0;
     sequencePeriods := 0;
     timer_1 := None;
     itime := {| it_interval := {| tv_sec := 1; tv_nsec := 0 |};
                 it_value := {| tv_sec := 1; tv_nsec := 0 |} |};
     seqCnt := 0 |}.

Definition boot (w : os) : process :=
  {| vars := globals0; policy := boot_policy w; priority := boot_priority w;
     cpus := boot_cpus w; threads := [] |}.

(** The globals when [main] has armed the timer, as a function of the cycle
    limit ([main] stores [LCM_PERIOD]; see [main_armed_globals]). *)
Definition ten_ms : timespec := {| tv_sec := 0; tv_nsec := 10000000 |}.

Definition armed_globals (periods : Z) : globals :=
  {| abortTest := FALSE; abortS1 := FALSE; abortS2 := FALSE; abortS3 := FALSE;
     semS1 := 0; semS2 := 0; semS3 := 0;
     sequencePeriods := periods;
     timer_1 := Some {| it_interval := ten_ms; it_value := ten_ms |};
     itime := {| it_interval := ten_ms; it_value := ten_ms |};
     seqCnt := 0 |}.

(** A Linux host that grants everything: SCHED_FIFO priorities 1..99,
    four cores. *)
Definition linux : os :=
  {| boot_policy := SCHED_OTHER; boot_priority := 0; boot_cpus := 15;
     sem_init_result := fun _ => 0;
     priority_min := fun pol => if (pol =? SCHED_FIFO) || (pol =? SCHED_RR) then 1 else 0;
     priority_max := fun pol => if (pol =? SCHED_FIFO) || (pol =? SCHED_RR) then 99 else 0;
     sched_setscheduler_result := 0;
     pthread_create_result := fun _ => 0;
     timer_create_result := 0 |}.

(** ** Reading the outcome of [main] *)

Definition result_of {A} (x : outcome A * process * list event) : outcome A := fst (fst x).
Definition state_of {A} (x : outcome A * process * list event) : process := snd (fst x).
Definition out_of {A} (x : outcome A * process * list event) : list event := snd x.

Definition failed_text (s : service) : string :=
  match s with
  | S1 => "Failed to initialize S1 semaphore\n"
  | S2 => "Failed to initialize S2 semaphore\n"
  | S3 => "Failed to initialize S3 semaphore\n"
  end.

Definition event_is_pthread_create (e : event) : bool :=
  match e with Pthread_create _ _ => true | _ => false end.

Definition event_is_timer_create (e : event) : bool :=
  match e with Timer_create => true | _ => false end.

(** The attribute thread [i] is created with: as the loop leaves it, with
    the priority set again to [rt_max_prio - down]. *)
Definition planned_attr (w : os) (i down : Z) : pthread_attr :=
  let rt_max_prio := priority_max w SCHED_FIFO in
  let f := fold_left (setup_attr w rt_max_prio) (indices NUM_THREADS) frame0 in
  pthread_attr_setschedparam w (rt_sched_attr f i) (int_sub rt_max_prio down).

Definition index_of (s : service) : Z :=
  match s with S1 => 0 | S2 => 1 | S3 => 2 end.

Definition core_of (s : service) : Z :=
  if Z.rem (index_of s) 2 =? 0 then 2 else 3.

(** The thread [create_services] starts for [s], when pthread_create
    succeeds. *)
Definition service_thread (w : os) (s : service) : thread :=
  {| entry := s;
     th_policy := SCHED_FIFO;
     th_priority := attr_priority (planned_attr w (index_of s) (index_of s + 1));
     th_cpus := CPU_SET (core_of s) CPU_ZERO |}.

Definition created (w : os) : list thread :=
  map (service_thread w)
      (filter (fun s => pthread_create_result w s =? 0) services).

(** What is written after the (first) call of timer_create. *)
Fixpoint after_timer_create (o : list event) : list event :=
  match o with
  | [] => []
  | e :: rest => if event_is_timer_create e then rest else after_timer_create rest
  end.

(** [linux], except that sem_init fails for the second semaphore. *)
Definition linux_without_semS2 : os :=
  {| boot_policy := SCHED_OTHER; boot_priority := 0; boot_cpus := 15;
     sem_init_result := fun s => match s with S2 => -1 | _ => 0 end;
     priority_min := priority_min linux;
     priority_max := priority_max linux;
     sched_setscheduler_result := 0;
     pthread_create_result := fun _ => 0;
     timer_create_result := 0 |}.

(** [linux], except that timer_create fails. *)
Definition linux_without_timer : os :=
  {| boot_policy := SCHED_OTHER; boot_priority := 0; boot_cpus := 15;
     sem_init_result := fun _ => 0;
     priority_min := priority_min linux;
     priority_max := priority_max linux;
     sched_setscheduler_result := 0;
     pthread_create_result := fun _ => 0;
     timer_create_result := -1 |}.


(** * The service threads and the running system *)

(** ** Service_1, Service_2, Service_3

    The three functions differ only in the semaphore, the abort flag and the
    texts they use, so they are one function of the [service].  A thread is
    at one of the following places; [SCnt] is its local counter ([S1Cnt],
    [S2Cnt], [S3Cnt]). *)

Inductive place :=
| AtStart      (* the start-up printf *)
| AtWhile      (* while(!abortS) *)
| AtWait       (* sem_wait(&semS) *)
| AtCount      (* SCnt++ *)
| AtReport     (* clock_gettime, sprintf, syslogPrint *)
| Exited.      (* pthread_exit *)

Record thread_state := { at_place : place; SCnt : Z }.

Definition started_text (s : service) : string :=
  match s with
  | S1 => "S1 thread @ sec=%6.9lf\n"
  | S2 => "S2 thread @ sec=%6.9lf\n"
  | S3 => "S3 thread @ sec=%6.9lf\n"
  end.

(** [Service s now cpu t]: the next statement of the thread of [s].  [now]
    is the elapsed time the clock gives and [cpu] the result of
    sched_getcpu, where the statement reads them; the text written to the
    log, "Thread <n> start <SCnt> @ sec=<now> on core <cpu>", is the event
    [Report s SCnt now cpu].  [None]: the thread cannot move (it is blocked
    in sem_wait, or has exited). *)
Definition Service (s : service) (now cpu : Z) (t : thread_state)
  : M (option thread_state) :=
  match at_place t with
  | AtStart =>
      (emit (Printf (started_text s) [now]) ;;
       ret (Some {| at_place := AtWhile; SCnt := SCnt t |}))%seq
  | AtWhile =>
      (a <- load (abortS s) ;;
       if negb (truthy a)
       then ret (Some {| at_place := AtWait; SCnt := SCnt t |})
       else ret (Some {| at_place := Exited; SCnt := SCnt t |}))%seq
  | AtWait =>
      (v <- load (sem s) ;;
       if 0 <? v
       then (store (set_sem s (v - 1)) ;;
             emit (Sem_wait s 0) ;;
             ret (Some {| at_place := AtCount; SCnt := SCnt t |}))
       else ret None)%seq
  | AtCount =>
      ret (Some {| at_place := AtReport; SCnt := wrap64 (SCnt t + 1) |})
  | AtReport =>
      (emit (Report s (SCnt t) now cpu) ;;
       ret (Some {| at_place := AtWhile; SCnt := SCnt t |}))%seq
  | Exited => ret None
  end.

(** sem_wait cut short by a signal handler that was installed without
    SA_RESTART: it returns -1 (EINTR) without taking a token.  The services
    do not look at the result of sem_wait, so the thread goes on to its next
    statement.  The program installs its only handler with signal(), which
    sets SA_RESTART (see [signal_flags]): in the program as it is built no
    wait ends this way, and [deliver] is what an interrupted wait does
    there. *)
Definition Service_interrupted (s : service) (t : thread_state)
  : M (option thread_state) :=
  match at_place t with
  | AtWait =>
      (v <- load (sem s) ;;
       if 0 <? v then ret None
       else (emit (Sem_wait s (-1)) ;;
             ret (Some {| at_place := AtCount; SCnt := SCnt t |})))%seq
  | _ => ret None
  end.

(** ** The handler, statement by statement

    The threads run on other cores while the handler runs, so for the
    running system [Sequencer] is taken one statement at a time;
    [Sequencer_statements] relates the two. *)

Inductive handler_place :=
| Idle
| AtRelease (s : service)    (* if((seqCnt % d) == 0) sem_post(&semS) *)
| AtIncrement                (* seqCnt++ *)
| AtTest                     (* if(abortTest || (seqCnt >= sequencePeriods)) *)
| AtDisarm                   (* itime = 0, timer_settime, printf *)
| AtShutdown (s : service)   (* sem_post(&semS) *)
| AtAbort (s : service).     (* abortS = TRUE *)

Definition Sequencer_statement (h : handler_place) : M handler_place :=
  match h with
  | Idle => ret Idle
  | AtRelease s =>
      (c <- load seqCnt ;;
       when (c mod period s =? 0) (sem_post s Release) ;;
       ret (match s with
            | S1 => AtRelease S2 | S2 => AtRelease S3 | S3 => AtIncrement
            end))%seq
  | AtIncrement =>
      (c <- load seqCnt ;;
       store (set_seqCnt (wrap64 (c + 1))) ;;
       ret AtTest)%seq
  | AtTest =>
      (a <- load abortTest ;;
       c <- load seqCnt ;;
       p <- load sequencePeriods ;;
       ret (if truthy a || (c >=? p) then AtDisarm else Idle))%seq
  | AtDisarm =>
      (store (itime_it_interval (set_tv_sec 0)) ;;
       store (itime_it_interval (set_tv_nsec 0)) ;;
       store (itime_it_value (set_tv_sec 0)) ;;
       store (itime_it_value (set_tv_nsec 0)) ;;
       timer_settime ;;
       a <- load abortTest ;;
       c <- load seqCnt ;;
       p <- load sequencePeriods ;;
       emit (Printf "Disabling sequencer interval timer with abort=%d and %llu of %d\n"
               [a; c; p]) ;;
       ret (AtShutdown S1))%seq
  | AtShutdown s =>
      (sem_post s Shutdown ;;
       ret (match s with
            | S1 => AtShutdown S2 | S2 => AtShutdown S3 | S3 => AtAbort S1
            end))%seq
  | AtAbort s =>
      (store (set_abortS s TRUE) ;;
       ret (match s with
            | S1 => AtAbort S2 | S2 => AtAbort S3 | S3 => Idle
            end))%seq
  end.

(** The handler from [h] to its return, at most [n] statements. *)
Fixpoint Sequencer_from (n : nat) (h : handler_place) : M handler_place :=
  match n with
  | O => ret h
  | S n' =>
      match h with
      | Idle => ret Idle
      | _ => (h' <- Sequencer_statement h ;; Sequencer_from n' h')%seq
      end
  end.

(** ** The system: globals, handler, threads and everything written so far *)

Record system := {
  shared : globals;
  handler : handler_place;
  running : service -> thread_state;
  written : list event
}.

Definition set_running (s : service) (t : thread_state)
    (r : service -> thread_state) : service -> thread_state :=
  fun s' => if service_eqb s' s then t else r s'.

(** What happens next is chosen from outside the program.  SIGALRM is
    blocked while its handler runs, and the handler is taken to return
    within the period: the timer expires only when the handler is idle. *)
Inductive choice :=
| Expire                          (* the timer expires: SIGALRM is delivered *)
| Handle                          (* the handler executes its next statement *)
| Run (s : service) (now cpu : Z) (* the thread of [s] executes its next statement *)
| Interrupt (s : service)         (* the sem_wait of [s] is interrupted *)
| SetAbort.                       (* something outside sets abortTest *)

Definition step (c : choice) (y : system) : option system :=
  match c with
  | Expire =>
      match handler y with
      | Idle =>
          if armed (shared y)
          then Some {| shared := shared y; handler := AtRelease S1;
                       running := running y; written := written y |}
          else None
      | _ => None
      end
  | Handle =>
      match handler y with
      | Idle => None
      | h =>
          let '(h', g, o) := Sequencer_statement h (shared y) in
          Some {| shared := g; handler := h';
                  running := running y; written := written y ++ o |}
      end
  | Run s now cpu =>
      let '(r, g, o) := Service s now cpu (running y s) (shared y) in
      match r with
      | Some t => Some {| shared := g; handler := handler y;
                          running := set_running s t (running y);
                          written := written y ++ o |}
      | None => None
      end
  | Interrupt s =>
      let '(r, g, o) := Service_interrupted s (running y s) (shared y) in
      match r with
      | Some t => Some {| shared := g; handler := handler y;
                          running := set_running s t (running y);
                          written := written y ++ o |}
      | None => None
      end
  | SetAbort =>
      Some {| shared := set_abortTest TRUE (shared y); handler := handler y;
              running := running y; written := written y |}
  end.

Fixpoint execute (cs : list choice) (y : system) : option system :=
  match cs with
  | [] => Some y
  | c :: rest =>
      match step c y with
      | Some y' => execute rest y'
      | None => None
      end
  end.

(** The system when [main] has armed the timer and created the threads. *)
Definition start (g : globals) : system :=
  {| shared := g; handler := Idle;
     running := fun _ => {| at_place := AtStart; SCnt := 0 |};
     written := [] |}.

(** *** Reading what was written *)

Definition event_is_wait (s : service) (ok : bool) (e : event) : bool :=
  match e with
  | Sem_wait s' r => service_eqb s s' && Bool.eqb ok (r =? 0)
  | _ => false
  end.

Definition event_is_report (s : service) (e : event) : bool :=
  match e with
  | Report s' _ _ _ => service_eqb s s'
  | _ => false
  end.

(** Tokens taken by [s], waits of [s] that were interrupted, records
    written by [s]. *)
Definition taken (s : service) (o : list event) : Z :=
  Z.of_nat (length (filter (event_is_wait s true) o)).

Definition interrupted (s : service) (o : list event) : Z :=
  Z.of_nat (length (filter (event_is_wait s false) o)).

Definition reports (s : service) (o : list event) : Z :=
  Z.of_nat (length (filter (event_is_report s) o)).

(** ** What holds of every state the system reaches

    [pending_count] and [pending_report] say whether the thread has
    returned from a wait for which it has not yet counted, or not yet
    written its record. *)

Definition pending_count (t : thread_state) : Z :=
  match at_place t with AtCount => 1 | _ => 0 end.

Definition pending_report (t : thread_state) : Z :=
  match at_place t with AtCount | AtReport => 1 | _ => 0 end.

Definition report_count (s : service) (e : event) : list Z :=
  match e with
  | Report s' c _ _ => if service_eqb s s' then [c] else []
  | _ => []
  end.

Definition report_counts (s : service) (o : list event) : list Z :=
  flat_map (report_count s) o.

Definition counts_to (n : nat) : list Z :=
  map (fun k => wrap64 (Z.of_nat k)) (seq 1 n).

Definition before (a b : service) : bool := index_of a <? index_of b.

Definition thread_inv (s : service) (y : system) : Prop :=
  let t := running y s in
  let o := written y in
  SCnt t = wrap64 (taken s o + interrupted s o - pending_count t) /\
  reports s o + pending_report t = taken s o + interrupted s o /\
  report_counts s o = counts_to (Z.to_nat (reports s o)) /\
  sem s (shared y) + taken s o = posts s Release o + posts s Shutdown o /\
  (at_place t = Exited -> truthy (abortS s (shared y)) = true).

Definition handler_inv (y : system) : Prop :=
  let g := shared y in
  let o := written y in
  match handler y with
  | Idle =>
      (forall s, posts s Shutdown o = 0 /\ abortS s g = FALSE) \/
      (armed g = false /\ forall s, posts s Shutdown o = 1)
  | AtShutdown s' =>
      armed g = false /\
      forall s, posts s Shutdown o = (if before s s' then 1 else 0) /\
                abortS s g = FALSE
  | AtAbort s' =>
      armed g = false /\
      forall s, posts s Shutdown o = 1 /\
                (abortS s g = FALSE \/ before s s' = true)
  | _ => forall s, posts s Shutdown o = 0 /\ abortS s g = FALSE
  end.

Definition fresh (g : globals) : Prop :=
  forall s, sem s g = 0 /\ abortS s g = FALSE.

(** A schedule in which the thread of S1 takes both its tokens - the one
    of tick 0 and the one of the shutdown block - with the cycle limit 1. *)
Definition both_tokens : list choice :=
  [Run S1 0 2; Run S1 0 2; Expire; Handle;
   Run S1 0 2; Run S1 0 2; Run S1 1 2; Run S1 0 2;
   Handle; Handle; Handle; Handle; Handle; Handle; Handle; Handle;
   Handle; Handle; Handle;
   Run S1 0 2; Run S1 0 2; Run S1 2 2; Run S1 0 2].

Definition outcome_of (cs : list choice) (g : globals) : system :=
  match execute cs (start g) with
  | Some y => y
  | None => start g
  end.

(** ** What one invocation of the handler does, in closed form *)

(** The shutdown test of the handler, on the globals it is entered with. *)
Definition stops (g : globals) : bool :=
  truthy (abortTest g) || (wrap64 (seqCnt g + 1) >=? sequencePeriods g).

Definition due (s : service) (c : Z) : bool := c mod period s =? 0.

Definition release_output (c : Z) : list event :=
  (if due S1 c then [Sem_post S1 Release] else []) ++
  (if due S2 c then [Sem_post S2 Release] else []) ++
  (if due S3 c then [Sem_post S3 Release] else []).

Definition shutdown_output (g : globals) : list event :=
  [ Timer_settime zero_itimerspec;
    Printf "Disabling sequencer interval timer with abort=%d and %llu of %d\n"%string
      [abortTest g; wrap64 (seqCnt g + 1); sequencePeriods g];
    Sem_post S1 Shutdown; Sem_post S2 Shutdown; Sem_post S3 Shutdown ].

(** The counter while the timer is armed: it has not wrapped and, after the
    first tick, is below the cycle limit. *)
Definition counting (g : globals) : Prop :=
  0 <= seqCnt g /\
  (seqCnt g = 0 \/ seqCnt g < sequencePeriods g) /\
  sequencePeriods g < 2 ^ 64.

(** * Further parts of the program and of its behaviour *)

(** ** Set-up: texts and hosts *)

(** The two texts of lines 382-407 for the thread of [s]. *)
Definition create_failed_text (s : service) : string :=
  match s with
  | S1 => "pthread_create for service 1"
  | S2 => "pthread_create for service 2"
  | S3 => "pthread_create for service 3"
  end.

Definition create_succeeded_text (s : service) : string :=
  match s with
  | S1 => "pthread_create successful for service 1\n"
  | S2 => "pthread_create successful for service 2\n"
  | S3 => "pthread_create successful for service 3\n"
  end.

Definition event_is_perror (msg : string) (e : event) : bool :=
  match e with Perror m => String.eqb m msg | _ => false end.

(** [linux] for a user without the right to use SCHED_FIFO. *)
Definition linux_unprivileged : os :=
  {| boot_policy := SCHED_OTHER; boot_priority := 0; boot_cpus := 15;
     sem_init_result := fun _ => 0;
     priority_min := priority_min linux;
     priority_max := priority_max linux;
     sched_setscheduler_result := -1;
     pthread_create_result := fun _ => 1;
     timer_create_result := 0 |}.

(** [linux], except that the second pthread_create fails with EAGAIN. *)
Definition linux_without_thread2 : os :=
  {| boot_policy := SCHED_OTHER; boot_priority := 0; boot_cpus := 15;
     sem_init_result := fun _ => 0;
     priority_min := priority_min linux;
     priority_max := priority_max linux;
     sched_setscheduler_result := 0;
     pthread_create_result := fun s => match s with S2 => 11 | _ => 0 end;
     timer_create_result := 0 |}.

(** ** The running system: what a choice moves, and two more schedules *)

(** The service whose thread a choice moves. *)
Definition acts_for (c : choice) : option service :=
  match c with
  | Run s _ _ | Interrupt s => Some s
  | _ => None
  end.

Definition is_interrupt_of (s : service) (c : choice) : bool :=
  match c with Interrupt s' => service_eqb s s' | _ => false end.

(** 1 while the thread is in sem_wait; 1 from sem_wait until its record is
    written. *)
Definition waiting (t : thread_state) : Z :=
  match at_place t with AtWait => 1 | _ => 0 end.

Definition owing (t : thread_state) : Z :=
  match at_place t with AtWait | AtCount | AtReport => 1 | _ => 0 end.

(** A schedule with cycle limit 1 in which the thread of S1 takes the token
    of the shutdown block before the handler has set [abortS1]. *)
Definition forced_token_first : list choice :=
  [Run S1 0 2; Run S1 0 2; Expire; Handle;
   Run S1 0 2; Run S1 0 2; Run S1 1 2; Run S1 0 2;
   Handle; Handle; Handle; Handle; Handle; Handle;
   Run S1 0 2; Run S1 0 2; Run S1 2 2; Run S1 0 2;
   Handle; Handle; Handle; Handle; Handle].

(** A schedule with cycle limit 1 in which the whole handler runs while the
    thread of S1 is in sem_wait. *)
Definition shutdown_while_waiting : list choice :=
  [Run S1 0 2; Run S1 0 2; Expire;
   Handle; Handle; Handle; Handle; Handle; Handle;
   Handle; Handle; Handle; Handle; Handle; Handle].

Definition after (cs : list choice) (y : system) : system :=
  match execute cs y with
  | Some y' => y'
  | None => y
  end.

Definition is_handler_choice (c : choice) : bool :=
  match c with Expire | Handle => true | _ => false end.

(** ** SIGALRM and a thread in sem_wait

    The handler is installed by signal() (line 427) in a file that defines
    _GNU_SOURCE (line 95), and siginterrupt is never called: signal() then
    has its BSD semantics, the handler is installed with the flag
    SA_RESTART.  What that flag decides (signal(7)): a sem_wait that the
    handler has interrupted is restarted when the handler returns if the
    flag is set, and returns -1 (EINTR) if it is not.  No other signal has a
    handler in this program. *)
Definition SA_RESTART : Z := 268435456.

Definition signal_flags : Z := SA_RESTART.

Definition restarts (sa_flags : Z) : bool :=
  negb (Z.land sa_flags SA_RESTART =? 0).

(** What runs while the handler does: statements of the handler and of the
    threads, and [abortTest] being set. *)
Definition is_statement (c : choice) : bool :=
  match c with
  | Handle | Run _ _ _ | SetAbort => true
  | Expire | Interrupt _ => false
  end.

(** The choice moves the thread [on] ([None]: the main thread). *)
Definition on_thread (on : option service) (c : choice) : bool :=
  match on, acts_for c with
  | Some s, Some s' => service_eqb s s'
  | _, _ => false
  end.

(** One expiry of the timer with SIGALRM delivered to the thread [on].  The
    handler runs there from its first statement to its return; [body] is
    its statements and what the other threads do meanwhile - the thread
    [on] executes the handler and nothing of its own.  If [on] is a service
    that was in sem_wait, the delivery has interrupted its wait: when the
    handler returns the wait is restarted, or fails with EINTR, as the flags
    of the handler say. *)
Definition deliver (sa_flags : Z) (on : option service) (body : list choice)
    (y : system) : option system :=
  if forallb is_statement body && negb (existsb (on_thread on) body)
  then match execute (Expire :: body) y with
       | Some y' =>
           match handler y' with
           | Idle =>
               match on with
               | Some s =>
                   match at_place (running y s) with
                   | AtWait =>
                       if restarts sa_flags then Some y'
                       else Some {| shared := shared y'; handler := Idle;
                                    running :=
                                      set_running s
                                        {| at_place := AtCount;
                                           SCnt := SCnt (running y' s) |}
                                        (running y');
                                    written := written y' ++ [Sem_wait s (-1)] |}
                   | _ => Some y'
                   end
               | None => Some y'
               end
           | _ => None
           end
       | None => None
       end
  else None.

(** The program at run time: expiries of the timer, statements of the
    service threads between them, and [abortTest] being set. *)
Inductive act :=
| Tick (on : option service) (body : list choice)
| Move (s : service) (now cpu : Z)
| Abort.

Definition perform (sa_flags : Z) (a : act) (y : system) : option system :=
  match a with
  | Tick on body => deliver sa_flags on body y
  | Move s now cpu => step (Run s now cpu) y
  | Abort => step SetAbort y
  end.

Fixpoint perform_all (sa_flags : Z) (acts : list act) (y : system)
  : option system :=
  match acts with
  | [] => Some y
  | a :: rest =>
      match perform sa_flags a y with
      | Some y' => perform_all sa_flags rest y'
      | None => None
      end
  end.

(** A failure that has come to the surface: a call of perror, or a sem_wait
    that returned something other than 0. *)
Definition event_is_failure (e : event) : bool :=
  match e with
  | Perror _ => true
  | Sem_wait _ r => negb (r =? 0)
  | _ => false
  end.


(** The handler's statements at a tick that is not the last. *)
Definition handler_run : list choice := [Handle; Handle; Handle; Handle; Handle].

(** The thread of S1 reaches sem_wait, tick 0 is delivered to the main
    thread, S1 takes its token and writes its record, and waits again. *)
Definition waiting_after_tick_0 : list act :=
  [Move S1 0 2; Move S1 0 2; Tick None handler_run;
   Move S1 0 2; Move S1 0 2; Move S1 1 2; Move S1 1 2].

Definition performed (sa_flags : Z) (acts : list act) (g : globals) : system :=
  match perform_all sa_flags acts (start g) with
  | Some y => y
  | None => start g
  end.

Definition delivered (sa_flags : Z) (on : option service) (body : list choice)
    (y : system) : system :=
  match deliver sa_flags on body y with
  | Some y' => y'
  | None => y
  end.

(** ** tsc_read

    [lo] and [hi] are what the rdtsc instruction leaves in EAX and EDX, two
    [unsigned int]; the function returns
    [(unsigned long long)hi << 32 | lo]. *)
Definition tsc_read (lo hi : Z) : Z :=
  Z.lor (wrap64 (Z.shiftl hi 32)) lo.

(** ** syslogPrint

    The calls it makes, in order.  popen is taken to succeed;
    [popen_output] is what the command writes; [var0] is what the
    uninitialised buffer [var] happens to hold.  [Syslog] records the
    string passed as the format of syslog. *)

Definition MAX_STRING_LEN : Z := 250.
Definition COURSE : Z := 2.
Definition ASSIGNMENT : Z := 1.

Definition SYSLOG_DATA : Z := 0.
Definition SYSLOG_UNAME : Z := 1.
Definition SYSLOG_PERROR : Z := 2.

(** The conversion [%d] of sprintf. *)
Definition percent_d (z : Z) : string := NilZero.string_of_int (Z.to_int z).

Inductive log_priority := LOG_DEBUG | LOG_PERROR.

Inductive log_call :=
| Openlog (ident : string)
| Popen (command : string)
| Pclose
| Syslog (priority : log_priority) (text : option string)
| Closelog.

Definition newline : ascii := "010"%char.

(** fgets(var, size, fp): at most [size - 1] characters, up to and
    including the first newline; [n] is [size - 1].  The result is the
    characters read and the rest of the stream. *)
Fixpoint fgets_chars (n : nat) (stream : string) : string * string :=
  match n, stream with
  | O, _ => (EmptyString, stream)
  | _, EmptyString => (EmptyString, EmptyString)
  | S n', String c rest =>
      if Ascii.eqb c newline then (String c EmptyString, rest)
      else let '(chunk, rest') := fgets_chars n' rest in (String c chunk, rest')
  end.

(** fgets returns NULL when it can read nothing. *)
Definition fgets (size : Z) (stream : string) : option (string * string) :=
  match fgets_chars (Z.to_nat (size - 1)) stream with
  | (EmptyString, _) => None
  | (chunk, rest) => Some (chunk, rest)
  end.

(** while (fgets(var, sizeof(var), fp) != NULL) { } : the buffer when the
    loop ends.  Every round takes at least one character, so the length of
    the stream bounds the number of rounds. *)
Fixpoint read_lines (rounds : nat) (var : string) (stream : string) : string :=
  match rounds with
  | O => var
  | S rounds' =>
      match fgets MAX_STRING_LEN stream with
      | Some (chunk, rest) => read_lines rounds' chunk rest
      | None => var
      end
  end.

Definition syslogPrint (data : option string) (flag : Z)
    (popen_output var0 : string) : list log_call :=
  let data_t := ("[COURSE:" ++ percent_d COURSE ++
                 "][ASSIGNMENT:" ++ percent_d ASSIGNMENT ++ "]")%string in
  [Openlog data_t] ++
  (if flag =? SYSLOG_UNAME then
     let var := read_lines (S (String.length popen_output)) var0 popen_output in
     [Popen "uname -a"; Pclose; Syslog LOG_DEBUG (Some var)]
   else if flag =? SYSLOG_DATA then [Syslog LOG_DEBUG data]
   else if flag =? SYSLOG_PERROR then [Syslog LOG_PERROR data]
   else []) ++
  [Closelog].

(** * Properties of [Sequencer] *)

Section SequencerFacts.

Variable id : Z.

Ltac reduce_globals :=
  cbn [fst snd app orb andb negb
       abortTest abortS1 abortS2 abortS3 semS1 semS2 semS3 sequencePeriods
       timer_1 itime seqCnt sem abortS set_sem set_abortS set_abortTest
       set_sequencePeriods set_timer_1 set_itime set_seqCnt
       itime_it_interval itime_it_value set_tv_sec set_tv_nsec
       it_interval it_value tv_sec tv_nsec].

Ltac run_handler g :=
  let E1 := fresh "E" in let E2 := fresh "E" in let E3 := fresh "E" in
  let E4 := fresh "E" in let E5 := fresh "E" in let E6 := fresh "E" in
  unfold output, exec, Sequencer, stops, release_output, shutdown_output,
    due, period, sem_post, timer_settime, when, bind, load, store, emit, ret;
  destruct (seqCnt g mod 2 =? 0) eqn:E1, (seqCnt g mod 10 =? 0) eqn:E2,
    (seqCnt g mod 15 =? 0) eqn:E3, (truthy (abortTest g)) eqn:E4,
    (wrap64 (seqCnt g + 1) >=? sequencePeriods g) eqn:E5, (timer_1 g) eqn:E6;
  repeat (progress (reduce_globals; rewrite ?E1, ?E2, ?E3, ?E4, ?E5, ?E6)).

Lemma Sequencer_output g :
  output (Sequencer id) g =
  release_output (seqCnt g) ++ (if stops g then shutdown_output g else []).
Proof. run_handler g; reflexivity. Qed.

Lemma Sequencer_seqCnt g :
  seqCnt (exec (Sequencer id) g) = wrap64 (seqCnt g + 1).
Proof. run_handler g; reflexivity. Qed.

Lemma Sequencer_abortTest g :
  abortTest (exec (Sequencer id) g) = abortTest g.
Proof. run_handler g; reflexivity. Qed.

Lemma Sequencer_sequencePeriods g :
  sequencePeriods (exec (Sequencer id) g) = sequencePeriods g.
Proof. run_handler g; reflexivity. Qed.

Lemma Sequencer_sem s g :
  sem s (exec (Sequencer id) g) =
  sem s g + (if due s (seqCnt g) then 1 else 0) + (if stops g then 1 else 0).
Proof. destruct s; run_handler g; lia. Qed.

Lemma Sequencer_abortS s g :
  abortS s (exec (Sequencer id) g) = if stops g then TRUE else abortS s g.
Proof. destruct s; run_handler g; reflexivity. Qed.

Lemma Sequencer_itime g :
  itime (exec (Sequencer id) g) = if stops g then zero_itimerspec else itime g.
Proof. run_handler g; reflexivity. Qed.

Lemma Sequencer_timer_1 g :
  timer_1 (exec (Sequencer id) g) =
  if stops g
  then match timer_1 g with Some _ => Some zero_itimerspec | None => None end
  else timer_1 g.
Proof. run_handler g; reflexivity. Qed.

Lemma Sequencer_armed g :
  armed (exec (Sequencer id) g) = armed g && negb (stops g).
Proof.
  unfold armed. rewrite Sequencer_timer_1.
  destruct (stops g), (timer_1 g); cbn; rewrite ?andb_true_r, ?andb_false_r;
    reflexivity.
Qed.

(** *** Counting in one handler output *)

Lemma posts_app s w o1 o2 : posts s w (o1 ++ o2) = posts s w o1 + posts s w o2.
Proof. unfold posts. rewrite filter_app, length_app. lia. Qed.

Lemma posts_release_output s c :
  posts s Release (release_output c) = if due s c then 1 else 0.
Proof.
  unfold release_output.
  destruct s, (due S1 c), (due S2 c), (due S3 c); reflexivity.
Qed.

Lemma posts_shutdown_release s g : posts s Shutdown (release_output g) = 0.
Proof.
  unfold release_output.
  destruct s, (due S1 g), (due S2 g), (due S3 g); reflexivity.
Qed.

Lemma posts_release_shutdown s g : posts s Release (shutdown_output g) = 0.
Proof. destruct s; reflexivity. Qed.

Lemma posts_shutdown_output s g : posts s Shutdown (shutdown_output g) = 1.
Proof. destruct s; reflexivity. Qed.

Lemma Sequencer_posts_Release s g :
  posts s Release (output (Sequencer id) g) = if due s (seqCnt g) then 1 else 0.
Proof.
  rewrite Sequencer_output, posts_app, posts_release_output.
  destruct (stops g); [rewrite posts_release_shutdown | change (posts s Release []) with 0]; lia.
Qed.

Lemma Sequencer_posts_Shutdown s g :
  posts s Shutdown (output (Sequencer id) g) = if stops g then 1 else 0.
Proof.
  rewrite Sequencer_output, posts_app, posts_shutdown_release.
  destruct (stops g); [rewrite posts_shutdown_output | change (posts s Shutdown []) with 0]; lia.
Qed.

Lemma terminating_release_output c : terminating (release_output c) = false.
Proof.
  unfold release_output. destruct (due S1 c), (due S2 c), (due S3 c); reflexivity.
Qed.

Lemma Sequencer_terminating g :
  terminating (output (Sequencer id) g) = stops g.
Proof.
  rewrite Sequencer_output. unfold terminating.
  rewrite existsb_app. fold (terminating (release_output (seqCnt g))).
  rewrite terminating_release_output. destruct (stops g); reflexivity.
Qed.

End SequencerFacts.

(** * Properties of the run *)

Section RunFacts.

Variable env : environment.

Lemma external_seqCnt k g : seqCnt (external env k g) = seqCnt g.
Proof. unfold external. destruct (env k); reflexivity. Qed.

Lemma external_sequencePeriods k g :
  sequencePeriods (external env k g) = sequencePeriods g.
Proof. unfold external. destruct (env k); reflexivity. Qed.

Lemma external_armed k g : armed (external env k g) = armed g.
Proof. unfold external. destruct (env k); reflexivity. Qed.

Lemma external_abortTest k g :
  abortTest (external env k g) = if env k then TRUE else abortTest g.
Proof. unfold external. destruct (env k); reflexivity. Qed.

Lemma run_not_armed fuel k g : armed g = false -> run env fuel k g = ([], g).
Proof. intros H. destruct fuel; cbn; [|rewrite H]; reflexivity. Qed.

Lemma run_armed fuel k g :
  armed g = true ->
  run env (S fuel) k g =
  (output (Sequencer SIGALRM) (external env k g)
     :: fst (run env fuel (S k) (exec (Sequencer SIGALRM) (external env k g))),
   snd (run env fuel (S k) (exec (Sequencer SIGALRM) (external env k g)))).
Proof.
  intros H. cbn [run]. rewrite H.
  destruct (run env fuel (S k) (exec (Sequencer SIGALRM) (external env k g)));
    reflexivity.
Qed.

(** Once the run has stopped by itself, more fuel changes nothing. *)
Lemma run_more_fuel fuel : forall k g extra,
  armed (snd (run env fuel k g)) = false ->
  run env (fuel + extra) k g = run env fuel k g.
Proof.
  induction fuel as [|fuel IH]; intros k g extra H.
  - cbn in H. rewrite (run_not_armed 0), run_not_armed; auto.
  - destruct (armed g) eqn:A.
    + rewrite run_armed in H by assumption. cbn [snd] in H.
      change (S fuel + extra)%nat with (S (fuel + extra)).
      rewrite !run_armed by assumption. now rewrite IH.
    + now rewrite !run_not_armed.
Qed.

Lemma counting_next k g :
  counting g ->
  armed (exec (Sequencer SIGALRM) (external env k g)) = true ->
  counting (exec (Sequencer SIGALRM) (external env k g)) /\
  seqCnt (exec (Sequencer SIGALRM) (external env k g)) = seqCnt g + 1.
Proof.
  intros (H0 & H1 & H2) A.
  rewrite Sequencer_armed in A. apply andb_true_iff in A as [_ A].
  apply negb_true_iff in A. unfold stops in A.
  apply orb_false_iff in A as [_ A].
  rewrite external_seqCnt, external_sequencePeriods in A.
  unfold counting.
  rewrite Sequencer_seqCnt, Sequencer_sequencePeriods,
    external_seqCnt, external_sequencePeriods.
  assert (W : wrap64 (seqCnt g + 1) = seqCnt g + 1).
  { unfold wrap64. apply Z.mod_small. lia. }
  rewrite W in *. lia.
Qed.

Lemma due_step s c :
  0 <= c -> (if due s c then 1 else 0) = c / period s - (c - 1) / period s.
Proof.
  intros Hc. unfold due.
  destruct (Z.eqb_spec (c mod period s) 0) as [E|E];
    destruct s; cbn [period] in *; Z.div_mod_to_equations; lia.
Qed.

(** Releases by the modulo tests over a run entered with counter [seqCnt g]. *)
Lemma run_total_release s fuel : forall k g,
  counting g ->
  let ticks := fst (run env fuel k g) in
  total_posts s Release ticks =
  (seqCnt g + Z.of_nat (length ticks) - 1) / period s - (seqCnt g - 1) / period s.
Proof.
  induction fuel as [|fuel IH]; intros k g C; cbn zeta.
  - cbn. replace (seqCnt g + 0 - 1) with (seqCnt g - 1) by lia. lia.
  - destruct (armed g) eqn:A.
    + rewrite run_armed by assumption. cbn [fst total_posts fold_right length].
      fold (total_posts s Release
              (fst (run env fuel (S k) (exec (Sequencer SIGALRM) (external env k g))))).
      rewrite Sequencer_posts_Release, external_seqCnt.
      rewrite due_step by apply C.
      destruct (armed (exec (Sequencer SIGALRM) (external env k g))) eqn:A'.
      * destruct (counting_next k g C A') as [C' E].
        specialize (IH (S k) _ C'). cbn zeta in IH. rewrite IH, E.
        rewrite Nat2Z.inj_succ.
        replace (seqCnt g + 1 + Z.of_nat (length (fst (run env fuel (S k)
                   (exec (Sequencer SIGALRM) (external env k g))))) - 1)
          with (seqCnt g + Z.succ (Z.of_nat (length (fst (run env fuel (S k)
                   (exec (Sequencer SIGALRM) (external env k g)))))) - 1) by lia.
        replace (seqCnt g + 1 - 1) with (seqCnt g) by lia. lia.
      * rewrite run_not_armed by assumption. cbn.
        replace (seqCnt g + 1 - 1) with (seqCnt g) by lia. lia.
    + rewrite run_not_armed by assumption. cbn.
      replace (seqCnt g + 0 - 1) with (seqCnt g - 1) by lia. lia.
Qed.

(** The run stops at the first tick at which the abort flag is found set
    or the cycle limit is reached.  [n] more ticks pass without either. *)
Lemma run_stops_at n : forall k g fuel,
  armed g = true ->
  abortTest g = FALSE ->
  0 <= seqCnt g ->
  seqCnt g + Z.of_nat n + 1 <= sequencePeriods g ->
  sequencePeriods g < 2 ^ 64 ->
  (forall j, (j < n)%nat -> env (k + j)%nat = false) ->
  env (k + n)%nat = true \/ seqCnt g + Z.of_nat n + 1 = sequencePeriods g ->
  (n < fuel)%nat ->
  let r := run env fuel k g in
  length (fst r) = S n /\
  terminating_ticks (Z.of_nat k) (fst r) = [Z.of_nat (k + n)] /\
  armed (snd r) = false /\
  seqCnt (snd r) = seqCnt g + Z.of_nat n + 1.
Proof.
  induction n as [|n IH]; intros k g fuel A T C0 CP P E L F; cbn zeta;
    (destruct fuel as [|fuel]; [lia|]);
    rewrite run_armed by assumption; cbn [fst snd length terminating_ticks];
    rewrite Sequencer_terminating;
    set (g1 := external env k g);
    assert (S1' : stops g1 = truthy (if env k then TRUE else FALSE)
                  || (seqCnt g + 1 >=? sequencePeriods g)).
  1,3: (unfold stops, g1;
        rewrite external_abortTest, external_seqCnt, external_sequencePeriods, T;
        unfold wrap64; rewrite Z.mod_small by lia; reflexivity).
  - assert (St : stops g1 = true).
    { rewrite S1'. rewrite Nat.add_0_r in L. destruct L as [L|L].
      - rewrite L. reflexivity.
      - apply orb_true_iff. right. apply Z.geb_le. lia. }
    rewrite St.
    assert (A' : armed (exec (Sequencer SIGALRM) g1) = false).
    { rewrite Sequencer_armed, St. apply andb_false_r. }
    rewrite run_not_armed by assumption. cbn [fst snd length terminating_ticks].
    rewrite Nat.add_0_r, A', Sequencer_seqCnt. unfold g1 at 1.
    rewrite external_seqCnt. unfold wrap64. rewrite Z.mod_small by lia.
    repeat split; auto; lia.
  - assert (St : stops g1 = false).
    { rewrite S1'. rewrite <- (Nat.add_0_r k) at 1. rewrite E by lia.
      cbn. rewrite Z.geb_leb. apply Z.leb_gt. lia. }
    rewrite St.
    assert (A' : armed (exec (Sequencer SIGALRM) g1) = true).
    { rewrite Sequencer_armed, St. unfold g1. rewrite external_armed, A.
      reflexivity. }
    assert (Q1 : abortTest g1 = FALSE).
    { unfold g1. rewrite external_abortTest, T.
      rewrite <- (Nat.add_0_r k). rewrite E by lia. reflexivity. }
    assert (Q2 : seqCnt g1 = seqCnt g) by apply external_seqCnt.
    assert (Q3 : sequencePeriods g1 = sequencePeriods g)
      by apply external_sequencePeriods.
    specialize (IH (S k) (exec (Sequencer SIGALRM) g1) fuel A').
    rewrite Sequencer_abortTest, Sequencer_seqCnt, Sequencer_sequencePeriods,
      Q1, Q2, Q3 in IH.
    unfold wrap64 in IH. rewrite Z.mod_small in IH by lia.
    destruct IH as (I1 & I2 & I3 & I4); try lia; auto.
    + intros j Hj. replace (S k + j)%nat with (k + S j)%nat by lia.
      apply E. lia.
    + replace (S k + n)%nat with (k + S n)%nat by lia.
      destruct L as [L|L]; [left; exact L | right; lia].
    + rewrite I1, I3, I4.
      replace (Z.of_nat k + 1) with (Z.of_nat (S k)) by lia.
      rewrite I2. replace (S k + n)%nat with (k + S n)%nat by lia.
      repeat split; auto; lia.
Qed.

End RunFacts.

(** * The sequencer: releases, termination, shutdown *)

(** C1 (as stated, refuted).  In the program's own run of 30 ticks the
    divisor-2 service is released 15 times by the modulo tests, not
    floor(30/2) + 1 = 16 times. *)
Lemma release_count_floor_plus_one_fails :
  let ticks := fst (run never 30 0 (armed_globals LCM_PERIOD)) in
  Z.of_nat (length ticks) = 30 /\
  total_posts S1 Release ticks = 15 /\
  total_posts S1 Release ticks <> Z.of_nat (length ticks) / period S1 + 1.
Proof. vm_compute. repeat split; discriminate. Qed.

(** C1 (amended).  After the [N] ticks of a run that starts with the cycle
    counter at 0, the modulo tests have posted floor((N-1)/d) + 1 tokens to
    the service with divisor [d] (none when N = 0): N/d when [d] divides
    [N], as in a run to the cycle limit, and floor(N/d) + 1 otherwise. *)
Theorem release_count_after_ticks (env : environment) (fuel : nat)
    (g : globals) (s : service) :
  seqCnt g = 0 ->
  sequencePeriods g < 2 ^ 64 ->
  let ticks := fst (run env fuel 0 g) in
  let N := Z.of_nat (length ticks) in
  total_posts s Release ticks = (N - 1) / period s + 1 /\
  (N mod period s = 0 -> total_posts s Release ticks = N / period s) /\
  (N mod period s <> 0 -> total_posts s Release ticks = N / period s + 1).
Proof.
  intros Z0 P ticks N.
  assert (C : counting g) by (unfold counting; lia).
  pose proof (run_total_release env s fuel 0 g C) as H. cbn zeta in H.
  fold ticks in H. fold N in H. rewrite Z0 in H.
  assert (HN : 0 <= N) by (unfold N; lia).
  rewrite H. clear H.
  destruct s; cbn [period]; repeat split; intros;
    Z.div_mod_to_equations; lia.
Qed.

Lemma release_count_after_ticks_witness :
  let ticks := fst (run (abort_before 4) 40 0 (armed_globals 30)) in
  let N := Z.of_nat (length ticks) in
  total_posts S1 Release ticks = (N - 1) / period S1 + 1 /\
  (N mod period S1 = 0 -> total_posts S1 Release ticks = N / period S1) /\
  (N mod period S1 <> 0 -> total_posts S1 Release ticks = N / period S1 + 1).
Proof.
  apply (release_count_after_ticks (abort_before 4) 40 (armed_globals 30) S1);
    reflexivity.
Defined.

(** C2.  From the globals as [main] leaves them (cycle limit 30), and with
    no abort from outside, the divisor-2 service is released by the modulo
    tests at ticks 0, 2, ..., 28 (15 times), the divisor-10 service at ticks
    0, 10, 20 (3 times) and the divisor-15 service at ticks 0 and 15
    (twice), however long the timer is left to run. *)
Theorem scenario_2_10_15 (extra : nat) :
  let ticks := fst (run never (30 + extra) 0 (armed_globals LCM_PERIOD)) in
  vars (state_of (main linux (boot linux))) = armed_globals LCM_PERIOD /\
  period S1 = 2 /\ period S2 = 10 /\ period S3 = 15 /\
  Z.of_nat (length ticks) = 30 /\
  release_ticks S1 0 ticks = [0; 2; 4; 6; 8; 10; 12; 14; 16; 18; 20; 22; 24; 26; 28] /\
  total_posts S1 Release ticks = 15 /\
  release_ticks S2 0 ticks = [0; 10; 20] /\
  total_posts S2 Release ticks = 3 /\
  release_ticks S3 0 ticks = [0; 15] /\
  total_posts S3 Release ticks = 2.
Proof.
  rewrite run_more_fuel by (vm_compute; reflexivity).
  vm_compute. repeat split; reflexivity.
Qed.

(** C3.  From the armed state, with cycle limit [n >= 1]: if nothing sets
    the abort flag the run has exactly [n] ticks, the shutdown block runs at
    the last of them (tick n-1, which leaves the counter at [n]) and at no
    other, and the timer is then stopped, so no later tick exists; if the
    flag is set before an earlier tick [k], the shutdown block runs at tick
    [k], after k+1 < n ticks. *)
Theorem termination_tick (n : nat) (g : globals) :
  armed g = true ->
  abortTest g = FALSE ->
  seqCnt g = 0 ->
  sequencePeriods g = Z.of_nat n ->
  (1 <= n)%nat ->
  Z.of_nat n < 2 ^ 64 ->
  (forall env fuel,
      (forall j, (j < n)%nat -> env j = false) ->
      (n <= fuel)%nat ->
      let r := run env fuel 0 g in
      length (fst r) = n /\
      terminating_ticks 0 (fst r) = [Z.of_nat n - 1] /\
      armed (snd r) = false /\
      seqCnt (snd r) = sequencePeriods g) /\
  (forall env fuel k,
      (k + 1 < n)%nat ->
      (forall j, (j < k)%nat -> env j = false) ->
      env k = true ->
      (k < fuel)%nat ->
      let r := run env fuel 0 g in
      length (fst r) = S k /\
      terminating_ticks 0 (fst r) = [Z.of_nat k] /\
      armed (snd r) = false /\
      (length (fst r) < n)%nat).
Proof.
  intros A T C P N1 N64. split.
  - intros env fuel E F.
    destruct n as [|m]; [lia|].
    assert (H : let r := run env fuel 0 g in
                length (fst r) = S m /\
                terminating_ticks (Z.of_nat 0) (fst r) = [Z.of_nat (0 + m)] /\
                armed (snd r) = false /\
                seqCnt (snd r) = seqCnt g + Z.of_nat m + 1).
    { apply run_stops_at; try assumption; try lia;
        intros j Hj; apply E; cbn; lia. }
    cbn zeta in *. destruct H as (H1 & H2 & H3 & H4).
    rewrite H1, H3, H4. cbn [Nat.add Z.of_nat] in H2. rewrite H2.
    repeat split; try reflexivity; try lia. f_equal. lia.
  - intros env fuel k K E Ek F.
    assert (H : let r := run env fuel 0 g in
                length (fst r) = S k /\
                terminating_ticks (Z.of_nat 0) (fst r) = [Z.of_nat (0 + k)] /\
                armed (snd r) = false /\
                seqCnt (snd r) = seqCnt g + Z.of_nat k + 1).
    { apply run_stops_at; try assumption; try lia.
      left. exact Ek. }
    cbn zeta in *. destruct H as (H1 & H2 & H3 & H4).
    rewrite H1, H3. cbn [Nat.add Z.of_nat] in H2. rewrite H2.
    repeat split; try reflexivity; lia.
Qed.

Lemma termination_tick_witness :
  (forall env fuel,
      (forall j, (j < 30)%nat -> env j = false) ->
      (30 <= fuel)%nat ->
      let r := run env fuel 0 (armed_globals LCM_PERIOD) in
      length (fst r) = 30%nat /\
      terminating_ticks 0 (fst r) = [Z.of_nat 30 - 1] /\
      armed (snd r) = false /\
      seqCnt (snd r) = sequencePeriods (armed_globals LCM_PERIOD)) /\
  (forall env fuel k,
      (k + 1 < 30)%nat ->
      (forall j, (j < k)%nat -> env j = false) ->
      env k = true ->
      (k < fuel)%nat ->
      let r := run env fuel 0 (armed_globals LCM_PERIOD) in
      length (fst r) = S k /\
      terminating_ticks 0 (fst r) = [Z.of_nat k] /\
      armed (snd r) = false /\
      (length (fst r) < 30)%nat).
Proof.
  apply (termination_tick 30 (armed_globals LCM_PERIOD));
    try reflexivity; lia.
Defined.

(** C4.  An invocation of the handler that finds the abort flag set or the
    cycle limit reached zeroes [itime] and passes it to timer_settime, so
    the timer is stopped; posts exactly one token to every service from its
    shutdown block, on top of the token of the modulo test where one was
    due; and leaves every service's abort flag at TRUE. *)
Theorem shutdown_block (id : Z) (g : globals) :
  stops g = true ->
  let g' := exec (Sequencer id) g in
  let o := output (Sequencer id) g in
  itime g' = zero_itimerspec /\
  In (Timer_settime zero_itimerspec) o /\
  armed g' = false /\
  forall s,
    posts s Shutdown o = 1 /\
    sem s g' = sem s g + (if due s (seqCnt g) then 1 else 0) + 1 /\
    abortS s g' = TRUE.
Proof.
  intros St g' o. unfold g', o. repeat split.
  - rewrite Sequencer_itime, St. reflexivity.
  - rewrite Sequencer_output, St. apply in_or_app. right. left. reflexivity.
  - rewrite Sequencer_armed, St. apply andb_false_r.
  - rewrite Sequencer_posts_Shutdown, St. reflexivity.
  - rewrite Sequencer_sem, St. reflexivity.
  - rewrite Sequencer_abortS, St. reflexivity.
Qed.

Lemma shutdown_block_witness :
  let g := set_seqCnt 29 (armed_globals LCM_PERIOD) in
  let g' := exec (Sequencer SIGALRM) g in
  let o := output (Sequencer SIGALRM) g in
  itime g' = zero_itimerspec /\
  In (Timer_settime zero_itimerspec) o /\
  armed g' = false /\
  forall s,
    posts s Shutdown o = 1 /\
    sem s g' = sem s g + (if due s (seqCnt g) then 1 else 0) + 1 /\
    abortS s g' = TRUE.
Proof.
  apply (shutdown_block SIGALRM (set_seqCnt 29 (armed_globals LCM_PERIOD))).
  reflexivity.
Defined.

(** C5.  The handler's release tests use the cycle counter as it is on
    entry: service [s] is posted to, once, exactly when that value is a
    multiple of its divisor, these posts are the first things the handler
    does, and the counter is one higher (modulo 2^64) on return.  So the
    invocation that finds the counter at 0 releases every service. *)
Theorem release_before_increment (id : Z) (g : globals) :
  (forall s, posts s Release (output (Sequencer id) g) =
             if seqCnt g mod period s =? 0 then 1 else 0) /\
  (exists rest, output (Sequencer id) g = release_output (seqCnt g) ++ rest /\
                forall s, posts s Release rest = 0) /\
  seqCnt (exec (Sequencer id) g) = wrap64 (seqCnt g + 1) /\
  (seqCnt g = 0 ->
   forall s, posts s Release (output (Sequencer id) g) = 1 /\
             sem s g + 1 <= sem s (exec (Sequencer id) g)).
Proof.
  repeat split.
  - intros s. apply Sequencer_posts_Release.
  - exists (if stops g then shutdown_output g else []). split.
    + apply Sequencer_output.
    + intros s. destruct (stops g);
        [apply posts_release_shutdown | reflexivity].
  - apply Sequencer_seqCnt.
  - rewrite Sequencer_posts_Release, H. destruct s; reflexivity.
  - rewrite Sequencer_sem, H.
    replace (due s 0) with true by (destruct s; reflexivity).
    destruct (stops g); lia.
Qed.

Lemma release_before_increment_witness :
  let g := armed_globals LCM_PERIOD in
  let o := output (Sequencer SIGALRM) g in
  seqCnt g = 0 /\
  posts S1 Release o = 1 /\ posts S2 Release o = 1 /\ posts S3 Release o = 1 /\
  seqCnt (exec (Sequencer SIGALRM) g) = 1.
Proof.
  destruct (release_before_increment SIGALRM (armed_globals LCM_PERIOD))
    as (_ & _ & C & H).
  specialize (H eq_refl).
  split; [reflexivity|]. split; [apply (H S1)|]. split; [apply (H S2)|].
  split; [apply (H S3)|]. exact C.
Defined.

(** * Properties of [main] *)

Arguments CPU_COUNT : simpl never.
Arguments int_sub : simpl never.
Arguments wrap_int : simpl never.
Arguments wrap64 : simpl never.

Lemma pbind_eq {A B} (m : Proc A) (k : A -> Proc B) p :
  pbind m k p =
  match result_of (m p) with
  | Returns a =>
      (result_of (k a (state_of (m p))), state_of (k a (state_of (m p))),
       out_of (m p) ++ out_of (k a (state_of (m p))))
  | Exits st => (Exits st, state_of (m p), out_of (m p))
  end.
Proof.
  unfold pbind, result_of, state_of, out_of.
  destruct (m p) as [[[a|st] p1] o1]; cbn; [|reflexivity].
  destruct (k a p1) as [[r2 p2] o2]; reflexivity.
Qed.

Ltac proc_unfold :=
  unfold init_semaphores, set_main_scheduler, create_services, start_sequencer,
    sem_init_or_exit, create_service, print_scheduler,
    sem_init, sched_setscheduler, sched_getscheduler, pthread_create, timer_create,
    signal, printf, perror, say, exit, lift, timer_settime,
    pbind, pret, bind, load, store, emit, ret, truthy,
    result_of, state_of, out_of.

Section MainFacts.

Variable w : os.

Lemma init_semaphores_frame p :
  let x := init_semaphores w p in
  policy (state_of x) = policy p /\ priority (state_of x) = priority p /\
  cpus (state_of x) = cpus p /\ threads (state_of x) = threads p /\
  timer_1 (vars (state_of x)) = timer_1 (vars p) /\
  existsb event_is_pthread_create (out_of x) = false /\
  existsb event_is_timer_create (out_of x) = false.
Proof.
  proc_unfold.
  destruct (sem_init_result w S1 =? 0), (sem_init_result w S2 =? 0),
    (sem_init_result w S3 =? 0); cbn; auto 10.
Qed.

Lemma init_semaphores_ok p :
  (forall s, sem_init_result w s = 0) ->
  result_of (init_semaphores w p) = Returns tt /\
  vars (state_of (init_semaphores w p)) =
  set_sem S3 0 (set_sem S2 0 (set_sem S1 0 (vars p))).
Proof.
  intros H. proc_unfold. rewrite !H. cbn. auto.
Qed.

Lemma init_semaphores_failed p :
  (exists s, sem_init_result w s <> 0) ->
  result_of (init_semaphores w p) = Exits (-1) /\
  exists s pre, sem_init_result w s <> 0 /\
                out_of (init_semaphores w p) = pre ++ [Printf (failed_text s) []].
Proof.
  intros H. proc_unfold.
  destruct (Z.eqb_spec (sem_init_result w S1) 0) as [E1|E1];
    [destruct (Z.eqb_spec (sem_init_result w S2) 0) as [E2|E2];
     [destruct (Z.eqb_spec (sem_init_result w S3) 0) as [E3|E3]|]|]; cbn.
  - exfalso. destruct H as [[| |] H]; contradiction.
  - split; [reflexivity|]. exists S3. eexists. split; [assumption|].
    cbn. instantiate (1 := [_; _; _; _]). reflexivity.
  - split; [reflexivity|]. exists S2. eexists. split; [assumption|].
    instantiate (1 := [_; _; _]). reflexivity.
  - split; [reflexivity|]. exists S1. eexists. split; [assumption|].
    instantiate (1 := [_; _]). reflexivity.
Qed.

Lemma set_main_scheduler_frame p :
  let x := set_main_scheduler w p in
  vars (state_of x) = vars p /\
  cpus (state_of x) = cpus p /\ threads (state_of x) = threads p /\
  existsb event_is_pthread_create (out_of x) = false /\
  existsb event_is_timer_create (out_of x) = false.
Proof.
  proc_unfold.
  destruct (sched_setscheduler_result w =? 0), (sched_setscheduler_result w <? 0);
    cbn;
    repeat match goal with
      | |- context [if ?b then _ else _] => destruct b; cbn
      end; auto 10.
Qed.

Lemma set_main_scheduler_returns p :
  let x := set_main_scheduler w p in
  result_of x = Returns tt ->
  policy (state_of x) = SCHED_FIFO /\
  (sched_setscheduler_result w = 0 ->
   priority (state_of x) = priority_max w SCHED_FIFO).
Proof.
  proc_unfold.
  destruct (Z.eqb_spec (sched_setscheduler_result w) 0) as [E|E],
    (sched_setscheduler_result w <? 0); cbn;
    repeat match goal with
      | |- context [if ?b =? ?c then _ else _] =>
          destruct (Z.eqb_spec b c); cbn
      end; intros; try discriminate; auto; split; auto; intros; contradiction.
Qed.


Lemma setschedparam_keeps a prio :
  attr_inheritsched (pthread_attr_setschedparam w a prio) = attr_inheritsched a /\
  attr_policy (pthread_attr_setschedparam w a prio) = attr_policy a /\
  attr_cpus (pthread_attr_setschedparam w a prio) = attr_cpus a.
Proof.
  unfold pthread_attr_setschedparam.
  match goal with |- context [if ?b then _ else _] => destruct b end; cbn; auto.
Qed.


Lemma planned_attr_fixed s down :
  attr_inheritsched (planned_attr w (index_of s) down) = PTHREAD_EXPLICIT_SCHED /\
  attr_policy (planned_attr w (index_of s) down) = SCHED_FIFO /\
  attr_cpus (planned_attr w (index_of s) down) = Some (CPU_SET (core_of s) CPU_ZERO).
Proof.
  unfold planned_attr.
  destruct (setschedparam_keeps
              (rt_sched_attr (fold_left (setup_attr w (priority_max w SCHED_FIFO))
                                (indices NUM_THREADS) frame0) (index_of s))
              (int_sub (priority_max w SCHED_FIFO) down)) as (E1 & E2 & E3).
  rewrite E1, E2, E3. clear E1 E2 E3.
  change (indices NUM_THREADS) with [0; 1; 2].
  destruct s; cbn [index_of fold_left setup_attr rt_sched_attr upd Z.eqb Pos.eqb
                     Z.rem Z.quotrem Pos.eqb];
    change (Z.rem 0 2) with 0; change (Z.rem 1 2) with 1; change (Z.rem 2 2) with 0;
    unfold core_of; cbn [index_of];
    change (Z.rem 0 2) with 0; change (Z.rem 1 2) with 1; change (Z.rem 2 2) with 0;
    cbn [Z.eqb Pos.eqb];
    match goal with
    | |- context [pthread_attr_setschedparam w ?a ?q] =>
        destruct (setschedparam_keeps a q) as (E1 & E2 & E3);
        rewrite E1, E2, E3
    end; repeat split; reflexivity.
Qed.



Lemma create_services_frame p :
  let x := create_services w p in
  result_of x = Returns tt /\
  vars (state_of x) = vars p /\ policy (state_of x) = policy p /\
  priority (state_of x) = priority p /\ cpus (state_of x) = cpus p /\
  existsb event_is_timer_create (out_of x) = false.
Proof.
  proc_unfold.
  destruct (pthread_create_result w S1 =? 0), (pthread_create_result w S1 <? 0),
    (pthread_create_result w S2 =? 0), (pthread_create_result w S2 <? 0),
    (pthread_create_result w S3 =? 0), (pthread_create_result w S3 <? 0);
    cbn [fst snd vars policy priority cpus with_thread existsb app
           event_is_timer_create orb]; auto 10.
Qed.

Lemma new_thread_planned s p :
  new_thread s (planned_attr w (index_of s) (index_of s + 1)) p = service_thread w s.
Proof.
  destruct (planned_attr_fixed s (index_of s + 1)) as (E1 & E2 & E3).
  unfold new_thread, service_thread. rewrite E1, E2, E3. reflexivity.
Qed.

Lemma create_services_threads p :
  threads (state_of (create_services w p)) = threads p ++ created w.
Proof.
  set (M := priority_max w SCHED_FIFO).
  set (F := fold_left (setup_attr w M) (indices NUM_THREADS) frame0).
  assert (A1 : forall q, new_thread S1 (pthread_attr_setschedparam w
                 (rt_sched_attr F 0) (int_sub M 1)) q = service_thread w S1)
    by (intros q; apply (new_thread_planned S1)).
  assert (A2 : forall q, new_thread S2 (pthread_attr_setschedparam w
                 (rt_sched_attr F 1) (int_sub M 2)) q = service_thread w S2)
    by (intros q; apply (new_thread_planned S2)).
  assert (A3 : forall q, new_thread S3 (pthread_attr_setschedparam w
                 (rt_sched_attr F 2) (int_sub M 3)) q = service_thread w S3)
    by (intros q; apply (new_thread_planned S3)).
  unfold created, services. cbn [filter]. proc_unfold. fold M. fold F.
  destruct (pthread_create_result w S1 =? 0), (pthread_create_result w S1 <? 0),
    (pthread_create_result w S2 =? 0), (pthread_create_result w S2 <? 0),
    (pthread_create_result w S3 =? 0), (pthread_create_result w S3 <? 0);
    cbn [fst snd threads with_thread app map filter upd rt_sched_attr
           Z.eqb Pos.eqb];
    rewrite ?A1, ?A2, ?A3, <- ?app_assoc; cbn [app]; rewrite ?app_nil_r;
    reflexivity.
Qed.

Lemma create_services_calls p s :
  In (Pthread_create s (planned_attr w (index_of s) (index_of s + 1)))
     (out_of (create_services w p)).
Proof.
  unfold planned_attr. proc_unfold.
  destruct (pthread_create_result w S1 <? 0), (pthread_create_result w S2 <? 0),
    (pthread_create_result w S3 <? 0);
    cbn [fst snd app]; destruct s; cbn [index_of Z.add Pos.add];
    repeat (first [left; reflexivity | right]).
Qed.

Lemma start_sequencer_frame p :
  let x := start_sequencer w p in
  result_of x = Returns tt /\
  policy (state_of x) = policy p /\ priority (state_of x) = priority p /\
  cpus (state_of x) = cpus p /\ threads (state_of x) = threads p /\
  existsb event_is_pthread_create (out_of x) = false.
Proof.
  proc_unfold.
  destruct (timer_create_result w =? 0); cbn;
    destruct (timer_1 (vars p)); cbn; auto 10.
Qed.

Lemma start_sequencer_armed p :
  timer_create_result w = 0 ->
  vars (state_of (start_sequencer w p)) =
  set_timer_1 (Some {| it_interval := ten_ms; it_value := ten_ms |})
    (set_itime {| it_interval := ten_ms; it_value := ten_ms |}
       (set_sequencePeriods LCM_PERIOD (vars p))).
Proof.
  intros H. proc_unfold. rewrite H. cbn. reflexivity.
Qed.

Lemma start_sequencer_no_timer p :
  timer_create_result w <> 0 ->
  timer_1 (vars p) = None ->
  timer_1 (vars (state_of (start_sequencer w p))) = None.
Proof.
  intros H N. proc_unfold.
  destruct (Z.eqb_spec (timer_create_result w) 0); [contradiction|].
  cbn. rewrite N. cbn. exact N.
Qed.


(** *** [main] as a whole *)

Ltac main_parts p :=
  unfold main; repeat (rewrite pbind_eq; cbv beta);
  pose proof (init_semaphores_frame p) as (I1 & I2 & I3 & I4 & I5 & I6 & I7);
  set (p1 := state_of (init_semaphores w p)) in *;
  pose proof (set_main_scheduler_frame p1) as (J1 & J2 & J3 & J4 & J5);
  set (p2 := state_of (set_main_scheduler w p1)) in *;
  pose proof (create_services_frame p2) as (K0 & K1 & K2 & K3 & K4 & K5);
  pose proof (create_services_threads p2) as K6;
  set (p3 := state_of (create_services w p2)) in *;
  pose proof (start_sequencer_frame p3) as (L0 & L1 & L2 & L3 & L4 & L5);
  cbv zeta in *.

Lemma main_cpus p : cpus (state_of (main w p)) = cpus p.
Proof.
  main_parts p.
  destruct (result_of (init_semaphores w p)) as [[]|]; [|exact I3].
  destruct (result_of (set_main_scheduler w p1)) as [[]|]; [|cbn [result_of state_of out_of fst snd]; congruence].
  rewrite K0. cbn [result_of state_of out_of fst snd]. congruence.
Qed.

Lemma main_semaphore_failed p :
  (exists s, sem_init_result w s <> 0) ->
  let x := main w p in
  result_of x = Exits (-1) /\
  threads (state_of x) = threads p /\
  timer_1 (vars (state_of x)) = timer_1 (vars p) /\
  existsb event_is_pthread_create (out_of x) = false /\
  existsb event_is_timer_create (out_of x) = false /\
  exists s pre, sem_init_result w s <> 0 /\
                out_of x = pre ++ [Printf (failed_text s) []].
Proof.
  intros H. destruct (init_semaphores_failed p H) as (R & s & pre & Hs & O).
  main_parts p. rewrite R. cbn [result_of state_of out_of fst snd]. repeat split; auto.
  exists s, pre. auto.
Qed.

Lemma main_returns p :
  let x := main w p in
  result_of x = Returns tt ->
  policy (state_of x) = SCHED_FIFO /\
  (sched_setscheduler_result w = 0 ->
   priority (state_of x) = priority_max w SCHED_FIFO) /\
  threads (state_of x) = threads p ++ created w /\
  forall s, In (Pthread_create s (planned_attr w (index_of s) (index_of s + 1)))
               (out_of x).
Proof.
  main_parts p.
  destruct (result_of (init_semaphores w p)) as [[]|]; [|discriminate].
  pose proof (set_main_scheduler_returns p1) as S. cbv zeta in S. fold p2 in S.
  destruct (result_of (set_main_scheduler w p1)) as [[]|]; [|discriminate].
  rewrite K0. cbn [result_of state_of out_of fst snd]. intros _. destruct (S eq_refl) as [S1' S2']. repeat split.
  - congruence.
  - intros E. rewrite L2, K3. auto.
  - rewrite L4, K6, J3, I4. reflexivity.
  - intros s. apply in_or_app. right. apply in_or_app. right.
    apply in_or_app. left. apply create_services_calls.
Qed.

Lemma after_timer_create_app a b :
  existsb event_is_timer_create a = false ->
  after_timer_create (a ++ b) = after_timer_create b.
Proof.
  induction a as [|e a IH]; cbn; [reflexivity|].
  intros H. apply orb_false_iff in H as [H1 H2]. rewrite H1. auto.
Qed.

Lemma after_timer_create_none a :
  existsb event_is_timer_create a = false -> after_timer_create a = [].
Proof.
  induction a as [|e a IH]; cbn; [reflexivity|].
  intros H. apply orb_false_iff in H as [H1 H2]. rewrite H1. auto.
Qed.

Lemma after_timer_create_quiet a :
  existsb event_is_pthread_create a = false ->
  existsb event_is_pthread_create (after_timer_create a) = false.
Proof.
  induction a as [|e a IH]; cbn; [reflexivity|].
  intros H. apply orb_false_iff in H as [H1 H2].
  destruct (event_is_timer_create e); auto.
Qed.

Lemma main_threads_before_timer p :
  existsb event_is_pthread_create (after_timer_create (out_of (main w p))) = false.
Proof.
  main_parts p.
  destruct (result_of (init_semaphores w p)) as [[]|];
    [|cbn [result_of state_of out_of fst snd]; now rewrite after_timer_create_none].
  destruct (result_of (set_main_scheduler w p1)) as [[]|];
    [|cbn [result_of state_of out_of fst snd]; rewrite after_timer_create_none; [reflexivity|];
      rewrite existsb_app, I7, J5; reflexivity].
  rewrite K0. cbn [result_of state_of out_of fst snd].
  rewrite !after_timer_create_app by assumption.
  now apply after_timer_create_quiet.
Qed.

Lemma main_timer_failed p :
  timer_create_result w <> 0 ->
  timer_1 (vars p) = None ->
  armed (vars (state_of (main w p))) = false.
Proof.
  intros T N. unfold armed.
  enough (E : timer_1 (vars (state_of (main w p))) = None) by now rewrite E.
  main_parts p.
  destruct (result_of (init_semaphores w p)) as [[]|]; [|cbn [result_of state_of out_of fst snd]; congruence].
  destruct (result_of (set_main_scheduler w p1)) as [[]|]; [|cbn [result_of state_of out_of fst snd]; congruence].
  rewrite K0. cbn [result_of state_of out_of fst snd]. apply start_sequencer_no_timer; [assumption|]. congruence.
Qed.

Lemma main_armed_globals :
  (forall s, sem_init_result w s = 0) ->
  timer_create_result w = 0 ->
  result_of (main w (boot w)) = Returns tt ->
  vars (state_of (main w (boot w))) = armed_globals LCM_PERIOD.
Proof.
  intros HS HT. main_parts (boot w).
  destruct (init_semaphores_ok (boot w) HS) as [R V]. fold p1 in V.
  rewrite R.
  destruct (result_of (set_main_scheduler w p1)) as [[]|]; [|discriminate].
  rewrite K0. cbn [result_of state_of out_of fst snd]. intros _.
  rewrite start_sequencer_armed by assumption.
  rewrite K1, J1, V. reflexivity.
Qed.

End MainFacts.

(** * The planner: priorities, affinity, failures at set-up *)

Lemma created_inv (w : os) (t : thread) :
  In t (created w) ->
  exists s, t = service_thread w s /\ pthread_create_result w s = 0.
Proof.
  unfold created. intros H. apply in_map_iff in H as (s & E & F).
  apply filter_In in F as [_ F]. exists s. split; [now symmetry|].
  now apply Z.eqb_eq.
Qed.






(** C7 (as stated, refuted).  On a host where the semaphores are
    initialised and timer_create fails, [main] does not exit: it has
    already created the three service threads, reports nothing about the
    timer and goes on to signal and timer_settime. *)
Lemma timer_failure_is_not_fatal :
  let x := main linux_without_timer (boot linux_without_timer) in
  timer_create_result linux_without_timer <> 0 /\
  result_of x = Returns tt /\
  map entry (threads (state_of x)) = [S1; S2; S3] /\
  after_timer_create (out_of x) =
    [Signal SIGALRM;
     Timer_settime {| it_interval := ten_ms; it_value := ten_ms |}].
Proof. vm_compute. repeat split; discriminate. Qed.

(** C7 (amended).  If the initialisation of a semaphore or the creation of
    the timer fails, the timer is never armed, so the handler never runs.
    If the initialisation of a semaphore fails, [main] moreover writes
    which one, as the last thing it writes, and exits with status -1 before
    any call of pthread_create or timer_create. *)
Theorem creation_failure (w : os) :
  (exists s, sem_init_result w s <> 0) \/ timer_create_result w <> 0 ->
  let x := main w (boot w) in
  armed (vars (state_of x)) = false /\
  ((exists s, sem_init_result w s <> 0) ->
   result_of x = Exits (-1) /\
   threads (state_of x) = [] /\
   existsb event_is_pthread_create (out_of x) = false /\
   existsb event_is_timer_create (out_of x) = false /\
   exists s pre, sem_init_result w s <> 0 /\
                 out_of x = pre ++ [Printf (failed_text s) []]).
Proof.
  intros H x. split.
  - destruct H as [H|H].
    + destruct (main_semaphore_failed w (boot w) H) as (_ & _ & T & _).
      unfold armed. fold x in T. rewrite T. reflexivity.
    + now apply main_timer_failed.
  - intros F.
    destruct (main_semaphore_failed w (boot w) F) as (R & Th & _ & E1 & E2 & L).
    auto 10.
Qed.

Lemma creation_failure_witness :
  let x := main linux_without_semS2 (boot linux_without_semS2) in
  armed (vars (state_of x)) = false /\
  ((exists s, sem_init_result linux_without_semS2 s <> 0) ->
   result_of x = Exits (-1) /\
   threads (state_of x) = [] /\
   existsb event_is_pthread_create (out_of x) = false /\
   existsb event_is_timer_create (out_of x) = false /\
   exists s pre, sem_init_result linux_without_semS2 s <> 0 /\
                 out_of x = pre ++ [Printf (failed_text s) []]).
Proof.
  apply (creation_failure linux_without_semS2).
  left. exists S2. cbn. discriminate.
Defined.

(** C9 (the code does not do this).  The service threads are bound as
    claimed: even index to core 2, odd index to core 3, and to no other
    core, so cores 0 and 1 are left free by them.  But [main] never changes
    the affinity of its own thread, in which the handler [Sequencer] runs:
    it keeps the mask the process was started with - on a four-core host
    all of cores 0 to 3, cores 2 and 3 of the services included. *)
Theorem sequencer_not_pinned :
  (forall w, cpus (state_of (main w (boot w))) = boot_cpus w) /\
  (forall w t, result_of (main w (boot w)) = Returns tt ->
               In t (threads (state_of (main w (boot w)))) ->
               th_cpus t = CPU_SET (if Z.rem (index_of (entry t)) 2 =? 0 then 2 else 3)
                             CPU_ZERO /\
               CPU_ISSET 0 (th_cpus t) = false /\
               CPU_ISSET 1 (th_cpus t) = false) /\
  let p := state_of (main linux (boot linux)) in
  map (fun c => CPU_ISSET c (cpus p)) [0; 1; 2; 3] = [true; true; true; true] /\
  map th_cpus (threads p) = [CPU_SET 2 CPU_ZERO; CPU_SET 3 CPU_ZERO; CPU_SET 2 CPU_ZERO].
Proof.
  split; [|split].
  - intros w. apply main_cpus.
  - intros w t R Ht.
    destruct (main_returns w (boot w) R) as (_ & _ & Th & _).
    rewrite Th in Ht. cbn [boot threads app] in Ht.
    apply created_inv in Ht as (s & -> & _).
    destruct s; repeat split; reflexivity.
  - vm_compute. split; reflexivity.
Qed.

(** * The running system: tokens, counters and records *)

Lemma taken_app s o1 o2 : taken s (o1 ++ o2) = taken s o1 + taken s o2.
Proof. unfold taken. rewrite filter_app, length_app. lia. Qed.

Lemma interrupted_app s o1 o2 :
  interrupted s (o1 ++ o2) = interrupted s o1 + interrupted s o2.
Proof. unfold interrupted. rewrite filter_app, length_app. lia. Qed.

Lemma reports_app s o1 o2 : reports s (o1 ++ o2) = reports s o1 + reports s o2.
Proof. unfold reports. rewrite filter_app, length_app. lia. Qed.

Lemma report_counts_app s o1 o2 :
  report_counts s (o1 ++ o2) = report_counts s o1 ++ report_counts s o2.
Proof. unfold report_counts. apply flat_map_app. Qed.

Lemma reports_nonneg s o : 0 <= reports s o.
Proof. unfold reports. lia. Qed.

Lemma counts_to_succ n : counts_to (S n) = counts_to n ++ [wrap64 (Z.of_nat (S n))].
Proof.
  unfold counts_to. rewrite seq_S, map_app. reflexivity.
Qed.

Lemma wrap64_wrap64 z : wrap64 (wrap64 z + 1) = wrap64 (z + 1).
Proof.
  unfold wrap64. rewrite Zplus_mod_idemp_l. reflexivity.
Qed.

Ltac sys_unfold :=
  unfold step, Service, Service_interrupted, Sequencer_statement,
    sem_post, timer_settime, when, bind, load, store, emit, ret.

Ltac counts :=
  rewrite ?taken_app, ?interrupted_app, ?reports_app, ?posts_app,
    ?report_counts_app;
  cbn [taken interrupted reports posts report_counts flat_map report_count
       filter length event_is_wait event_is_report event_is_post
       service_eqb site_eqb Bool.eqb andb Z.eqb Z.of_nat Pos.of_succ_nat app].

Lemma statement_effect h g s :
  let x := Sequencer_statement h g in
  taken s (snd x) = 0 /\ interrupted s (snd x) = 0 /\ reports s (snd x) = 0 /\
  report_counts s (snd x) = [] /\
  sem s (snd (fst x)) = sem s g + posts s Release (snd x) + posts s Shutdown (snd x) /\
  (truthy (abortS s g) = true -> truthy (abortS s (snd (fst x))) = true).
Proof.
  destruct h as [|s0| | | |s0|s0]; try destruct s0; destruct s;
    unfold Sequencer_statement, sem_post, timer_settime, when, bind, load, store,
      emit, ret, period;
    cbn [fst snd];
    repeat match goal with
      | |- context [if ?b then _ else _] => destruct b
      | |- context [match timer_1 ?g with _ => _ end] => destruct (timer_1 g)
      end;
    cbn; repeat split; auto; lia.
Qed.

Lemma step_Handle y y' :
  step Handle y = Some y' ->
  handler y <> Idle /\
  shared y' = snd (fst (Sequencer_statement (handler y) (shared y))) /\
  handler y' = fst (fst (Sequencer_statement (handler y) (shared y))) /\
  running y' = running y /\
  written y' = written y ++ snd (Sequencer_statement (handler y) (shared y)).
Proof.
  unfold step. intros H.
  destruct (handler y) eqn:Hh; try discriminate;
    match type of H with
    | context [Sequencer_statement ?h ?g] =>
        destruct (Sequencer_statement h g) as [[h' g'] o] eqn:E
    end;
    injection H as <-; cbn [shared handler running written fst snd];
    repeat split; auto; discriminate.
Qed.

Ltac thread_case E Et pl :=
  cbn [set_running service_eqb];
  try rewrite Et in *; cbn [at_place SCnt] in *;
  destruct pl;
  unfold sem_post, timer_settime, when, bind, load, store, emit, ret in E;
  cbn [fst snd sem abortS] in E;
  repeat match type of E with
    | context [if ?b then _ else _] => destruct b eqn:?
    end;
  try discriminate;
  injection E as <- <- <-;
  unfold pending_count, pending_report in *; cbn [at_place SCnt] in *;
  counts; rewrite ?app_nil_r, ?Z.add_0_r;
  cbn [sem abortS semS1 semS2 semS3 abortS1 abortS2 abortS3] in *;
  repeat split; auto; try discriminate; try lia;
  try (intros _; now apply negb_false_iff);
  try (match goal with I : _ = wrap64 _ |- _ =>
         rewrite I, ?wrap64_wrap64; f_equal; lia end);
  try (match goal with
       | I : _ = wrap64 _, J : report_counts _ _ = _ |- _ =>
           rewrite Z2Nat.inj_add, Nat.add_1_r, counts_to_succ, J by lia;
           f_equal; f_equal; rewrite I; f_equal; lia
       end).

Lemma thread_inv_step c y y' s :
  step c y = Some y' -> thread_inv s y -> thread_inv s y'.
Proof.
  unfold thread_inv. intros H (I1 & I2 & I3 & I4 & I5).
  destruct c as [| |s' now cpu|s'|].
  - (* Expire *)
    unfold step in H. destruct (handler y); try discriminate.
    destruct (armed (shared y)); try discriminate.
    injection H as <-. cbn. auto.
  - (* Handle *)
    apply step_Handle in H as (_ & Hg & _ & Hr & Hw).
    destruct (statement_effect (handler y) (shared y) s)
      as (E1 & E2 & E3 & E4 & E5 & E6).
    rewrite Hg, Hr, Hw. counts. rewrite E1, E2, E3, E4, E5, app_nil_r.
    rewrite !Z.add_0_r. repeat split; auto; lia.
  - (* Run *)
    unfold step in H.
    destruct (Service s' now cpu (running y s') (shared y)) as [[r g'] o] eqn:E.
    destruct r as [t|]; [|discriminate]. injection H as <-.
    cbn [running written shared].
    unfold Service in E.
    pose proof (reports_nonneg s (written y)) as RN.
    destruct (running y s') as [pl cnt] eqn:Et.
    destruct s, s'; thread_case E Et pl.
  - (* Interrupt *)
    unfold step in H.
    destruct (Service_interrupted s' (running y s') (shared y)) as [[r g'] o] eqn:E.
    destruct r as [t|]; [|discriminate]. injection H as <-.
    cbn [running written shared].
    unfold Service_interrupted in E.
    pose proof (reports_nonneg s (written y)) as RN.
    destruct (running y s') as [pl cnt] eqn:Et.
    destruct s, s'; thread_case E Et pl.
  - injection H as <-. cbn. destruct s; cbn; auto.
Qed.


Lemma posts_nil s w : posts s w [] = 0.
Proof. reflexivity. Qed.

Ltac globals_fields :=
  cbn [sem abortS semS1 semS2 semS3 abortS1 abortS2 abortS3 armed timer_1
       set_sem set_abortS set_itime set_timer_1 set_seqCnt set_abortTest
       itime_it_interval itime_it_value itime it_value it_interval
       set_tv_sec set_tv_nsec tv_sec tv_nsec timespec_is_zero
       Z.eqb andb negb] in *.

Ltac eval_before :=
  repeat match goal with
    | |- context [before ?a ?b] =>
        let v := eval vm_compute in (before a b) in change (before a b) with v
    | H : context [before ?a ?b] |- _ =>
        let v := eval vm_compute in (before a b) in
        change (before a b) with v in H
    end.

Ltac all_services I :=
  let s := fresh "s" in
  intros s;
  pose proof (I S1); pose proof (I S2); pose proof (I S3);
  destruct s; counts; globals_fields; eval_before;
  rewrite ?posts_nil, ?Z.add_0_r;
  unfold TRUE, FALSE in *;
  intuition (try discriminate; try lia).

Ltac handler_case I :=
  match type of I with
  | _ /\ _ =>
      let A := fresh "A" in
      destruct I as [A I];
      first [ solve [all_services I]
            | solve [split; [globals_fields; assumption | all_services I]]
            | solve [right; split; [globals_fields; assumption | all_services I]] ]
  | _ \/ _ =>
      let A := fresh "A" in
      destruct I as [I|[A I]];
      first [ solve [all_services I]
            | solve [left; all_services I]
            | solve [right; split; [globals_fields; assumption | all_services I]] ]
  | _ =>
      first [ solve [all_services I]
            | solve [left; all_services I]
            | solve [split; [unfold armed;
                             match goal with
                             | E : timer_1 _ = None |- _ => rewrite E; reflexivity
                             end
                            | all_services I]]
            | solve [split; [globals_fields;
                              first [reflexivity | assumption
                                    | match goal with
                                      | E : timer_1 _ = None |- _ => rewrite E; reflexivity
                                      end]
                            | all_services I]] ]
  end.

Lemma handler_inv_same y y' :
  handler y' = handler y ->
  armed (shared y') = armed (shared y) ->
  (forall s, posts s Shutdown (written y') = posts s Shutdown (written y)) ->
  (forall s, abortS s (shared y') = abortS s (shared y)) ->
  handler_inv y -> handler_inv y'.
Proof.
  unfold handler_inv. intros -> -> P A.
  destruct (handler y);
    repeat setoid_rewrite P; repeat setoid_rewrite A; auto.
Qed.

Ltac thread_quiet E pl :=
  destruct pl;
  unfold sem_post, timer_settime, when, bind, load, store, emit, ret in E;
  cbn [fst snd sem abortS] in E;
  repeat match type of E with
    | context [if ?b then _ else _] => destruct b eqn:?
    end;
  try discriminate;
  injection E as <- <- <-;
  repeat split; try reflexivity;
  intros []; counts; rewrite ?posts_nil, ?Z.add_0_r; reflexivity.

Lemma handler_inv_step c y y' :
  step c y = Some y' -> handler_inv y -> handler_inv y'.
Proof.
  intros H I.
  destruct c as [| |s' now cpu|s'|].
  - (* Expire *)
    unfold handler_inv in *.
    unfold step in H. destruct (handler y); try discriminate.
    destruct (armed (shared y)) eqn:A; try discriminate.
    injection H as <-. cbn [handler shared written].
    destruct I as [I|[I _]]; [exact I | discriminate].
  - (* Handle *)
    unfold handler_inv in *.
    unfold step in H.
    destruct (handler y) as [|s0| | | |s0|s0]; try discriminate;
      try destruct s0;
      unfold Sequencer_statement, sem_post, timer_settime, when, bind, load,
        store, emit, ret, period in H; cbn [fst snd] in H;
      repeat match type of H with
        | context [if ?b then _ else _] => destruct b eqn:?
        | context [match timer_1 ?g with _ => _ end] => destruct (timer_1 g) eqn:?
        end;
      injection H as <-; cbn [handler shared written];
      rewrite ?app_nil_r; handler_case I.
  - (* Run *)
    unfold step in H.
    destruct (Service s' now cpu (running y s') (shared y)) as [[r g'] o] eqn:E.
    destruct r as [t|]; [|discriminate]. injection H as <-.
    unfold Service in E. destruct (running y s') as [pl cnt].
    cbn [at_place SCnt] in E.
    apply (handler_inv_same y); cbn [handler shared written]; try assumption;
      destruct s'; thread_quiet E pl.
  - (* Interrupt *)
    unfold step in H.
    destruct (Service_interrupted s' (running y s') (shared y)) as [[r g'] o] eqn:E.
    destruct r as [t|]; [|discriminate]. injection H as <-.
    unfold Service_interrupted in E. destruct (running y s') as [pl cnt].
    cbn [at_place SCnt] in E.
    apply (handler_inv_same y); cbn [handler shared written]; try assumption;
      destruct s'; thread_quiet E pl.
  - injection H as <-.
    apply (handler_inv_same y); cbn [handler shared written]; try assumption;
      try reflexivity; intros []; reflexivity.
Qed.


Lemma thread_inv_start g s : fresh g -> thread_inv s (start g).
Proof.
  intros F. destruct (F s) as [F1 F2]. unfold thread_inv, start.
  cbn [running written shared at_place SCnt]. rewrite F1.
  repeat split; try reflexivity. discriminate.
Qed.

Lemma handler_inv_start g : fresh g -> handler_inv (start g).
Proof.
  intros F. unfold handler_inv, start. cbn [handler shared written].
  left. intros s. split; [reflexivity | apply F].
Qed.

Lemma execute_inv cs : forall y y',
  execute cs y = Some y' ->
  (forall s, thread_inv s y) -> handler_inv y ->
  (forall s, thread_inv s y') /\ handler_inv y'.
Proof.
  induction cs as [|c cs IH]; intros y y' H T I; cbn [execute] in H.
  - injection H as <-. auto.
  - destruct (step c y) as [y1|] eqn:E; [|discriminate].
    apply (IH y1 y' H).
    + intros s. apply (thread_inv_step c y y1 s E (T s)).
    + apply (handler_inv_step c y y1 E I).
Qed.

Lemma posts_nonneg s w o : 0 <= posts s w o.
Proof. unfold posts. lia. Qed.

Lemma handler_inv_shutdown y s :
  handler_inv y ->
  posts s Shutdown (written y) <= 1 /\
  (truthy (abortS s (shared y)) = true -> posts s Shutdown (written y) = 1).
Proof.
  unfold handler_inv. intros I.
  destruct (handler y) as [|s0| | | |s0|s0].
  - destruct I as [I|[_ I]].
    + destruct (I s) as [-> ->]. split; [lia|discriminate].
    + rewrite (I s). split; [lia|auto].
  - destruct (I s) as [-> ->]. split; [lia|discriminate].
  - destruct (I s) as [-> ->]. split; [lia|discriminate].
  - destruct (I s) as [-> ->]. split; [lia|discriminate].
  - destruct (I s) as [-> ->]. split; [lia|discriminate].
  - destruct I as [_ I]. destruct (I s) as [-> ->].
    split; [destruct (before s s0); lia | discriminate].
  - destruct I as [_ I]. destruct (I s) as [-> _]. split; [lia|auto].
Qed.

Lemma fresh_armed_globals p : fresh (armed_globals p).
Proof. intros []; split; reflexivity. Qed.

Lemma Sequencer_from_step n h g :
  h <> Idle ->
  Sequencer_from (S n) h g =
  (let '(h', g1, o1) := Sequencer_statement h g in
   let '(r, g2, o2) := Sequencer_from n h' g1 in
   (r, g2, o1 ++ o2)).
Proof.
  intros H. cbn [Sequencer_from]. destruct h; try contradiction; reflexivity.
Qed.

Ltac reduce_statement :=
  cbn [Sequencer_statement];
  unfold period, sem_post, timer_settime, when, bind, load, store, emit, ret;
  cbn [fst snd app orb andb negb
       abortTest abortS1 abortS2 abortS3 semS1 semS2 semS3 sequencePeriods
       timer_1 itime seqCnt sem abortS set_sem set_abortS set_abortTest
       set_sequencePeriods set_timer_1 set_itime set_seqCnt
       itime_it_interval itime_it_value set_tv_sec set_tv_nsec
       it_interval it_value tv_sec tv_nsec].

Lemma Sequencer_statements id g :
  Sequencer_from 12 (AtRelease S1) g =
  (Idle, exec (Sequencer id) g, output (Sequencer id) g).
Proof.
  unfold exec, output, Sequencer.
  unfold sem_post, timer_settime, when, bind, load, store, emit, ret.
  destruct (seqCnt g mod 2 =? 0) eqn:E1, (seqCnt g mod 10 =? 0) eqn:E2,
    (seqCnt g mod 15 =? 0) eqn:E3, (truthy (abortTest g)) eqn:E4,
    (wrap64 (seqCnt g + 1) >=? sequencePeriods g) eqn:E5, (timer_1 g) eqn:E6;
    repeat (first
      [ rewrite Sequencer_from_step by discriminate
      | progress reduce_statement
      | progress rewrite ?E1, ?E2, ?E3, ?E4, ?E5, ?E6 ]);
    try (cbn [Sequencer_from]; unfold ret); reflexivity.
Qed.


(** C10.  Between the return of sem_wait and the next test of the abort
    flag a service does exactly two things: it adds one to its counter and
    it writes one record carrying the new count.  Hence in every state the
    running system reaches, whatever the interleaving: the counter of a
    service is the number of its waits that have returned (less one while
    the increment is pending), its records are numbered 1, 2, 3, ... and
    are as many as those waits (less one while the record is pending); every
    token posted is either taken or still on the semaphore; the shutdown
    block posts at most once; and a service that has exited has written a
    record for every wait that returned, after a shutdown post was made - so
    when it has taken every token, the forced one included, and no wait was
    interrupted, its records are one more than its releases by the modulo
    tests. *)
Theorem every_token_is_reported (cs : list choice) (g : globals) (y : system)
    (s : service) :
  fresh g ->
  execute cs (start g) = Some y ->
  let t := running y s in
  let o := written y in
  (forall t0 g0 c now cpu,
      at_place t0 = AtWait -> 0 < sem s g0 ->
      Service s now cpu t0 g0 =
        (Some {| at_place := AtCount; SCnt := SCnt t0 |},
         set_sem s (sem s g0 - 1) g0, [Sem_wait s 0]) /\
      Service s now cpu {| at_place := AtCount; SCnt := c |} g0 =
        (Some {| at_place := AtReport; SCnt := wrap64 (c + 1) |}, g0, []) /\
      Service s now cpu {| at_place := AtReport; SCnt := c |} g0 =
        (Some {| at_place := AtWhile; SCnt := c |}, g0, [Report s c now cpu])) /\
  SCnt t = wrap64 (taken s o + interrupted s o - pending_count t) /\
  reports s o + pending_report t = taken s o + interrupted s o /\
  report_counts s o = counts_to (Z.to_nat (reports s o)) /\
  sem s (shared y) + taken s o = posts s Release o + posts s Shutdown o /\
  posts s Shutdown o <= 1 /\
  (at_place t = Exited ->
   reports s o = taken s o + interrupted s o /\
   posts s Shutdown o = 1 /\
   (sem s (shared y) = 0 -> interrupted s o = 0 ->
    reports s o = posts s Release o + 1)).
Proof.
  intros F E t o.
  destruct (execute_inv cs (start g) y E) as [T I].
  { intros s'. now apply thread_inv_start. }
  { now apply handler_inv_start. }
  destruct (T s) as (T1 & T2 & T3 & T4 & T5). fold t o in T1, T2, T3, T4, T5.
  destruct (handler_inv_shutdown y s I) as [H1 H2]. fold o in H1, H2.
  split.
  { intros t0 g0 c now cpu P V. unfold Service. rewrite P. cbn [at_place SCnt].
    unfold bind, load, store, emit, ret. cbn [fst snd].
    apply Z.ltb_lt in V. rewrite V. auto. }
  split; [exact T1|]. split; [exact T2|]. split; [exact T3|].
  split; [exact T4|]. split; [exact H1|].
  intros X. specialize (H2 (T5 X)).
  unfold pending_report in T2. rewrite X in T2.
  repeat split; try lia.
Qed.

Lemma every_token_is_reported_witness :
  let y := outcome_of both_tokens (armed_globals 1) in
  at_place (running y S1) = Exited /\
  reports S1 (written y) = posts S1 Release (written y) + 1 /\
  report_counts S1 (written y) = [1; 2].
Proof.
  assert (E : execute both_tokens (start (armed_globals 1)) =
              Some (outcome_of both_tokens (armed_globals 1)))
    by (vm_compute; reflexivity).
  assert (X : at_place (running (outcome_of both_tokens (armed_globals 1)) S1) = Exited)
    by (vm_compute; reflexivity).
  pose proof (every_token_is_reported both_tokens (armed_globals 1)
                (outcome_of both_tokens (armed_globals 1)) S1
                (fresh_armed_globals 1) E) as H.
  cbv zeta in H. destruct H as (_ & _ & _ & _ & _ & _ & H).
  cbv zeta. split; [exact X|].
  destruct (H X) as (_ & _ & K).
  split; [apply K; vm_compute; reflexivity | vm_compute; reflexivity].
Defined.

(** * More on [main] *)

Section MainOutcome.

Variable w : os.

Lemma init_semaphores_result p :
  (forall s, sem_init_result w s = 0) /\ result_of (init_semaphores w p) = Returns tt \/
  (exists s, sem_init_result w s <> 0) /\ result_of (init_semaphores w p) = Exits (-1).
Proof.
  proc_unfold.
  destruct (Z.eqb_spec (sem_init_result w S1) 0) as [E1|E1];
    [destruct (Z.eqb_spec (sem_init_result w S2) 0) as [E2|E2];
     [destruct (Z.eqb_spec (sem_init_result w S3) 0) as [E3|E3]|]|]; cbn.
  - left. split; [intros []; assumption | reflexivity].
  - right. split; [exists S3; assumption | reflexivity].
  - right. split; [exists S2; assumption | reflexivity].
  - right. split; [exists S1; assumption | reflexivity].
Qed.

Lemma init_semaphores_policy p :
  policy (state_of (init_semaphores w p)) = policy p.
Proof. apply init_semaphores_frame. Qed.

Lemma set_main_scheduler_result p :
  (sched_setscheduler_result w = 0 \/ policy p = SCHED_FIFO) /\
    result_of (set_main_scheduler w p) = Returns tt \/
  (sched_setscheduler_result w <> 0 /\ policy p <> SCHED_FIFO) /\
    result_of (set_main_scheduler w p) = Exits (-1).
Proof.
  proc_unfold.
  destruct (Z.eqb_spec (sched_setscheduler_result w) 0) as [E|E],
    (sched_setscheduler_result w <? 0); cbn;
    repeat match goal with
      | |- context [if ?b =? ?c then _ else _] =>
          destruct (Z.eqb_spec b c); cbn
      end; auto; try (right; split; [split|]; auto; discriminate).
Qed.

Lemma set_main_scheduler_perror p :
  sched_setscheduler_result w < 0 ->
  In (Perror "main_param") (out_of (set_main_scheduler w p)).
Proof.
  intros H. proc_unfold.
  replace (sched_setscheduler_result w <? 0) with true
    by (symmetry; now apply Z.ltb_lt).
  destruct (sched_setscheduler_result w =? 0); cbn;
    repeat match goal with
      | |- context [if ?b =? ?c then _ else _] =>
          destruct (Z.eqb_spec b c); cbn
      end; auto.
Qed.

Lemma main_returns_semaphores :
  result_of (main w (boot w)) = Returns tt ->
  forall s, sem_init_result w s = 0.
Proof.
  unfold main. repeat (rewrite pbind_eq; cbv beta).
  destruct (init_semaphores_result (boot w)) as [[I R]|[_ R]]; rewrite R.
  - intros _. exact I.
  - discriminate.
Qed.

Lemma start_sequencer_timer_create p :
  existsb event_is_timer_create (out_of (start_sequencer w p)) = true.
Proof.
  proc_unfold.
  destruct (timer_create_result w =? 0); cbn;
    repeat match goal with
    | |- context [match timer_1 ?g with _ => _ end] => destruct (timer_1 g); cbn
    end; reflexivity.
Qed.

(** X1.  [main] gets through its set-up - and only then calls timer_create -
    exactly when the three semaphores are initialised and the process is
    SCHED_FIFO, because its request was granted or because it was so from
    the start; in every other case it exits with status -1.  What
    pthread_create and timer_create answer makes no difference to that.  The
    timer is armed when [main] is done exactly when, moreover, timer_create
    succeeded. *)
Theorem main_set_up_outcome :
  let x := main w (boot w) in
  (result_of x = Returns tt <->
   (forall s, sem_init_result w s = 0) /\
   (sched_setscheduler_result w = 0 \/ boot_policy w = SCHED_FIFO)) /\
  (result_of x = Returns tt \/ result_of x = Exits (-1)) /\
  (existsb event_is_timer_create (out_of x) = true <-> result_of x = Returns tt) /\
  (armed (vars (state_of x)) = true <->
   result_of x = Returns tt /\ timer_create_result w = 0).
Proof.
  cbv zeta. unfold main. repeat (rewrite pbind_eq; cbv beta).
  pose proof (init_semaphores_result (boot w)) as I.
  pose proof (init_semaphores_frame w (boot w)) as (IP & _ & _ & _ & I5 & _ & I7).
  pose proof (init_semaphores_ok w (boot w)) as IV.
  set (p1 := state_of (init_semaphores w (boot w))) in *.
  pose proof (set_main_scheduler_result p1) as J.
  pose proof (set_main_scheduler_frame w p1) as (J1 & _ & _ & _ & J5).
  set (p2 := state_of (set_main_scheduler w p1)) in *.
  pose proof (create_services_frame w p2) as (K0 & K1 & _ & _ & _ & K5).
  set (p3 := state_of (create_services w p2)) in *.
  pose proof (start_sequencer_frame w p3) as (L0 & _).
  pose proof (start_sequencer_timer_create p3) as L1.
  pose proof (start_sequencer_armed w p3) as L2.
  pose proof (start_sequencer_no_timer w p3) as L3.
  cbv zeta in *. cbn [boot policy vars timer_1 globals0] in IP, I5. rewrite IP in J.
  assert (N1 : armed (vars p1) = false) by (unfold armed; now rewrite I5).
  assert (N2 : armed (vars p2) = false) by (now rewrite J1).
  destruct I as [[I R]|[[s I] R]]; rewrite R;
    [destruct J as [[J R']|[[J1' J2] R']]; rewrite R'; [rewrite K0|]|];
    cbn [result_of state_of out_of fst snd].
  - rewrite L0, !existsb_app, L1, !orb_true_r.
    split; [split; auto|]. split; [auto|]. split; [split; auto|].
    destruct (Z.eq_dec (timer_create_result w) 0) as [T|T].
    + rewrite (L2 T). split; [auto|]. intros _. reflexivity.
    + assert (E : timer_1 (vars (state_of (start_sequencer w p3))) = None).
      { apply L3; [exact T|]. rewrite K1, J1. exact I5. }
      unfold armed. rewrite E. split; [discriminate|]. intros [_ H]. contradiction.
  - rewrite !existsb_app, I7, J5, N2. cbn [orb].
    split; [split; [discriminate|]; intros [_ [H|H]]; contradiction|].
    split; [auto|]. split; split; try discriminate. intros [H _]. discriminate.
  - rewrite I7, N1.
    split; [split; [discriminate|]; intros [H _]; elim I; apply H|].
    split; [auto|]. split; split; try discriminate. intros [H _]. discriminate.
Qed.

End MainOutcome.

Section MainFailures.

Variable w : os.

Lemma set_main_scheduler_quiet p :
  existsb event_is_pthread_create (out_of (set_main_scheduler w p)) = false /\
  existsb event_is_timer_create (out_of (set_main_scheduler w p)) = false /\
  threads (state_of (set_main_scheduler w p)) = threads p /\
  timer_1 (vars (state_of (set_main_scheduler w p))) = timer_1 (vars p).
Proof.
  destruct (set_main_scheduler_frame w p) as (V & _ & T & E1 & E2).
  rewrite V. auto.
Qed.

(** X2.  When the switch to SCHED_FIFO is refused and the process is not
    SCHED_FIFO already, [print_scheduler] ends the process with status -1:
    no thread has been created, no timer exists, and (for the usual result
    -1) "main_param" has been passed to perror. *)
Theorem scheduler_refusal_is_fatal :
  (forall s, sem_init_result w s = 0) ->
  sched_setscheduler_result w <> 0 ->
  boot_policy w <> SCHED_FIFO ->
  let x := main w (boot w) in
  result_of x = Exits (-1) /\
  threads (state_of x) = [] /\
  policy (state_of x) = boot_policy w /\
  timer_1 (vars (state_of x)) = None /\
  existsb event_is_pthread_create (out_of x) = false /\
  existsb event_is_timer_create (out_of x) = false /\
  (sched_setscheduler_result w < 0 -> In (Perror "main_param") (out_of x)).
Proof.
  intros S R B. unfold main. repeat (rewrite pbind_eq; cbv beta).
  pose proof (init_semaphores_result w (boot w)) as I.
  pose proof (init_semaphores_frame w (boot w)) as (I1 & _ & _ & I4 & I5 & I6 & I7).
  set (p1 := state_of (init_semaphores w (boot w))) in *.
  pose proof (set_main_scheduler_result w p1) as J.
  pose proof (set_main_scheduler_quiet p1) as (J1 & J2 & J3 & J4).
  pose proof (set_main_scheduler_perror w p1) as J5.
  assert (J6 : policy (state_of (set_main_scheduler w p1)) = policy p1).
  { unfold set_main_scheduler, sched_setscheduler, print_scheduler,
      sched_getscheduler, printf, perror, say, exit, pbind, pret, state_of.
    destruct (Z.eqb_spec (sched_setscheduler_result w) 0); [contradiction|].
    destruct (sched_setscheduler_result w <? 0); cbn;
      repeat match goal with
        | |- context [if ?b =? ?c then _ else _] =>
            destruct (Z.eqb_spec b c); cbn
        end; reflexivity. }
  cbv zeta in *. cbn [boot policy threads vars timer_1 globals0] in *.
  destruct I as [[_ RI]|[[s I] _]]; [|elim I; apply S]. rewrite RI.
  rewrite I1 in J. destruct J as [[[J|J] _]|[_ RJ]]; try contradiction.
  rewrite RJ. cbn [result_of state_of out_of fst snd].
  rewrite !existsb_app, I6, I7, J1, J2, J3, J4, J6, I1, I4, I5.
  repeat split; auto. intros N. apply in_or_app. right. auto.
Qed.

End MainFailures.

Lemma scheduler_refusal_is_fatal_witness :
  let x := main linux_unprivileged (boot linux_unprivileged) in
  result_of x = Exits (-1) /\
  threads (state_of x) = [] /\
  In (Perror "main_param") (out_of x).
Proof.
  destruct (scheduler_refusal_is_fatal linux_unprivileged)
    as (H1 & H2 & _ & _ & _ & _ & H3);
    [intros s; reflexivity | discriminate | discriminate |].
  cbv zeta. split; [exact H1|]. split; [exact H2|]. apply H3. reflexivity.
Defined.

Section ThreadCreation.

Variable w : os.

Lemma init_semaphores_no_perror p msg :
  existsb (event_is_perror msg) (out_of (init_semaphores w p)) = false.
Proof.
  proc_unfold.
  destruct (sem_init_result w S1 =? 0), (sem_init_result w S2 =? 0),
    (sem_init_result w S3 =? 0); reflexivity.
Qed.

Lemma set_main_scheduler_no_perror p s :
  existsb (event_is_perror (create_failed_text s))
    (out_of (set_main_scheduler w p)) = false.
Proof.
  proc_unfold.
  destruct (sched_setscheduler_result w =? 0), (sched_setscheduler_result w <? 0);
    cbn [fst snd policy with_sched];
    repeat match goal with
      | |- context [if ?b =? ?c then _ else _] => destruct (b =? c)
      end; destruct s; reflexivity.
Qed.

Lemma start_sequencer_no_perror p msg :
  existsb (event_is_perror msg) (out_of (start_sequencer w p)) = false.
Proof.
  proc_unfold.
  destruct (timer_create_result w =? 0); cbn;
    destruct (timer_1 (vars p)); reflexivity.
Qed.

Lemma create_services_report p s :
  let o := out_of (create_services w p) in
  if pthread_create_result w s <? 0
  then In (Perror (create_failed_text s)) o /\
       ~ In (Printf (create_succeeded_text s) []) o
  else In (Printf (create_succeeded_text s) []) o /\
       existsb (event_is_perror (create_failed_text s)) o = false.
Proof.
  proc_unfold.
  destruct (pthread_create_result w S1 <? 0) eqn:E1,
    (pthread_create_result w S2 <? 0) eqn:E2,
    (pthread_create_result w S3 <? 0) eqn:E3;
    cbn [fst snd app]; destruct s; rewrite ?E1, ?E2, ?E3;
    cbn [create_failed_text create_succeeded_text];
    (split;
     [ repeat (first [left; reflexivity | right])
     | first [ reflexivity
             | intros H; cbn [In] in H;
               repeat (destruct H as [H|H]; [discriminate H|]); exact H ] ]).
Qed.

(** X3.  [main] takes pthread_create to have failed only when its result is
    negative.  pthread_create reports failure by a positive error number:
    [main] then writes that the creation was successful, passes nothing to
    perror, and goes on to arm the timer although the service has no
    thread. *)
Theorem failed_creation_is_reported_successful (s : service) :
  result_of (main w (boot w)) = Returns tt ->
  0 < pthread_create_result w s ->
  let x := main w (boot w) in
  In (Printf (create_succeeded_text s) []) (out_of x) /\
  existsb (event_is_perror (create_failed_text s)) (out_of x) = false /\
  forall t, In t (threads (state_of x)) -> entry t <> s.
Proof.
  intros R F x.
  destruct (main_returns w (boot w) R) as (_ & _ & Th & _). fold x in Th.
  assert (N : (pthread_create_result w s <? 0) = false) by (apply Z.ltb_ge; lia).
  split; [|split].
  - revert R. unfold x, main. repeat (rewrite pbind_eq; cbv beta).
    destruct (result_of (init_semaphores w (boot w))) as [[]|]; [|discriminate].
    destruct (result_of (set_main_scheduler w _)) as [[]|]; [|discriminate].
    pose proof (create_services_frame w
                  (state_of (set_main_scheduler w
                     (state_of (init_semaphores w (boot w)))))) as (K0 & _).
    cbv zeta in K0. rewrite K0. intros _. cbn [out_of snd].
    apply in_or_app. right. apply in_or_app. right. apply in_or_app. left.
    pose proof (create_services_report
                  (state_of (set_main_scheduler w
                     (state_of (init_semaphores w (boot w))))) s) as C.
    cbv zeta in C. rewrite N in C. apply C.
  - revert R. unfold x, main. repeat (rewrite pbind_eq; cbv beta).
    destruct (result_of (init_semaphores w (boot w))) as [[]|]; [|discriminate].
    destruct (result_of (set_main_scheduler w _)) as [[]|]; [|discriminate].
    pose proof (create_services_frame w
                  (state_of (set_main_scheduler w
                     (state_of (init_semaphores w (boot w)))))) as (K0 & _).
    cbv zeta in K0. rewrite K0. intros _. cbn [out_of snd].
    rewrite !existsb_app.
    pose proof (create_services_report
                  (state_of (set_main_scheduler w
                     (state_of (init_semaphores w (boot w))))) s) as C.
    cbv zeta in C. rewrite N in C. destruct C as [_ C].
    fold (out_of (init_semaphores w (boot w))).
    rewrite init_semaphores_no_perror, set_main_scheduler_no_perror, C,
      start_sequencer_no_perror. reflexivity.
  - intros t Ht E. rewrite Th in Ht. cbn [boot threads app] in Ht.
    apply created_inv in Ht as (s' & -> & Z0). cbn [service_thread entry] in E.
    subst s'. lia.
Qed.

End ThreadCreation.

Lemma failed_creation_is_reported_successful_witness :
  let x := main linux_without_thread2 (boot linux_without_thread2) in
  In (Printf (create_succeeded_text S2) []) (out_of x) /\
  map entry (threads (state_of x)) = [S1; S3] /\
  armed (vars (state_of x)) = true.
Proof.
  destruct (failed_creation_is_reported_successful linux_without_thread2 S2)
    as (H & _); [reflexivity | reflexivity |].
  cbv zeta. split; [exact H|]. split; reflexivity.
Defined.

(** X4.  Whenever [main] gets as far as arming a timer it could create, it
    leaves the sequencer in one and the same state, however many of the
    threads exist: every semaphore empty, no abort flag set, the cycle
    counter 0, the cycle limit 30, and the timer set to expire after 10 ms
    and every 10 ms from then on. *)
Theorem main_leaves_the_sequencer_ready (w : os) :
  result_of (main w (boot w)) = Returns tt ->
  timer_create_result w = 0 ->
  let g := vars (state_of (main w (boot w))) in
  (forall s, sem s g = 0 /\ abortS s g = FALSE) /\
  abortTest g = FALSE /\
  seqCnt g = 0 /\
  sequencePeriods g = 30 /\
  timer_1 g = Some {| it_interval := {| tv_sec := 0; tv_nsec := 10000000 |};
                      it_value := {| tv_sec := 0; tv_nsec := 10000000 |} |} /\
  armed g = true.
Proof.
  intros R T g.
  assert (S : forall s, sem_init_result w s = 0).
  { exact (main_returns_semaphores w R). }
  unfold g. rewrite (main_armed_globals w S T R).
  repeat split; try reflexivity; destruct s; reflexivity.
Qed.

Lemma main_leaves_the_sequencer_ready_witness :
  let g := vars (state_of (main linux_without_thread2 (boot linux_without_thread2))) in
  sem S2 g = 0 /\ seqCnt g = 0 /\ sequencePeriods g = 30 /\ armed g = true.
Proof.
  destruct (main_leaves_the_sequencer_ready linux_without_thread2)
    as (S & _ & C & P & _ & A); [reflexivity | reflexivity |].
  cbv zeta. split; [apply (S S2)|]. auto.
Defined.

(** * More on the run *)

Section RunEnds.

Variable env : environment.

Lemma run_bounded fuel : forall k g,
  counting g ->
  let r := run env fuel k g in
  Z.of_nat (length (fst r)) <= Z.max 1 (sequencePeriods g - seqCnt g) /\
  (Z.max 1 (sequencePeriods g - seqCnt g) <= Z.of_nat fuel ->
   armed (snd r) = false) /\
  seqCnt (snd r) = seqCnt g + Z.of_nat (length (fst r)).
Proof.
  induction fuel as [|fuel IH]; intros k g C; cbn zeta.
  - cbn [run fst snd length]. repeat split; lia.
  - destruct (armed g) eqn:A;
      [|rewrite run_not_armed by assumption; cbn; repeat split; auto; lia].
    rewrite run_armed by assumption. cbn [fst snd length].
    destruct (armed (exec (Sequencer SIGALRM) (external env k g))) eqn:A'.
    + destruct (counting_next env k g C A') as [C' E].
      destruct (IH (S k) _ C') as (L & T & N).
      rewrite Sequencer_sequencePeriods, external_sequencePeriods, E in L, T.
      rewrite E in N.
      destruct C' as (_ & C2 & _).
      rewrite Sequencer_sequencePeriods, external_sequencePeriods, E in C2.
      destruct C as (C0 & _ & _).
      split; [lia|]. split; [intros F; apply T; lia | lia].
    + rewrite run_not_armed by assumption. cbn [fst snd length].
      rewrite Sequencer_seqCnt, external_seqCnt.
      destruct C as (C0 & C1 & C2).
      unfold wrap64. rewrite Z.mod_small by lia.
      split; [lia|]. split; [auto | lia].
Qed.

End RunEnds.

(** X5.  Started with the counter at 0, the handler runs at most
    max(1, sequencePeriods) times, whatever sets [abortTest] and whenever,
    and the timer is then stopped; the counter never wraps and ends as the
    number of ticks.  With a cycle limit of 0 or 1 the handler runs exactly
    once. *)
Theorem every_run_ends (env : environment) (fuel : nat) (g : globals) :
  seqCnt g = 0 ->
  sequencePeriods g < 2 ^ 64 ->
  let r := run env fuel 0 g in
  Z.of_nat (length (fst r)) <= Z.max 1 (sequencePeriods g) /\
  (Z.max 1 (sequencePeriods g) <= Z.of_nat fuel -> armed (snd r) = false) /\
  seqCnt (snd r) = Z.of_nat (length (fst r)) /\
  (armed g = true -> (0 < fuel)%nat -> sequencePeriods g <= 1 ->
   length (fst r) = 1%nat).
Proof.
  intros Z0 P r.
  assert (C : counting g) by (unfold counting; lia).
  destruct (run_bounded env fuel 0 g C) as (L & T & N). fold r in L, T, N.
  rewrite Z0, Z.sub_0_r in L, T. rewrite Z0 in N.
  split; [exact L|]. split; [exact T|]. split; [exact N|].
  intros A F P1. destruct fuel as [|fuel]; [lia|].
  unfold r in *. rewrite run_armed in * by assumption. cbn [fst length] in *. lia.
Qed.

Lemma every_run_ends_witness :
  let g := armed_globals 0 in
  let r := run (abort_before 7) 5 0 g in
  length (fst r) = 1%nat /\ armed (snd r) = false.
Proof.
  destruct (every_run_ends (abort_before 7) 5 (armed_globals 0))
    as (_ & T & _ & L); [reflexivity | reflexivity |].
  cbv zeta. split; [apply L; [reflexivity | lia | cbn; lia] | apply T; cbn; lia].
Defined.

Section ForcedRelease.

Variable env : environment.

Lemma total_posts_cons s w o ticks :
  total_posts s w (o :: ticks) = posts s w o + total_posts s w ticks.
Proof. reflexivity. Qed.

Lemma run_forced fuel : forall k kz g s,
  armed g = true ->
  let r := run env fuel k g in
  let n := Z.of_nat (length (fst r)) in
  if armed (snd r)
  then total_posts s Shutdown (fst r) = 0 /\
       terminating_ticks kz (fst r) = [] /\
       abortS s (snd r) = abortS s g /\
       sem s (snd r) = sem s g + total_posts s Release (fst r)
  else total_posts s Shutdown (fst r) = 1 /\
       terminating_ticks kz (fst r) = [kz + n - 1] /\
       abortS s (snd r) = TRUE /\
       sem s (snd r) = sem s g + total_posts s Release (fst r) + 1.
Proof.
  induction fuel as [|fuel IH]; intros k kz g s A; cbn zeta.
  - cbn [run fst snd]. rewrite A. cbn. repeat split; lia.
  - rewrite run_armed by assumption. cbn [fst snd length terminating_ticks].
    rewrite !total_posts_cons, Sequencer_terminating,
      Sequencer_posts_Shutdown, Sequencer_posts_Release.
    set (g1 := external env k g).
    assert (E1 : sem s g1 = sem s g /\ abortS s g1 = abortS s g /\
                 seqCnt g1 = seqCnt g).
    { unfold g1, external. destruct (env k); destruct s; auto. }
    destruct E1 as (E1 & E2 & E3).
    pose proof (Sequencer_armed SIGALRM g1) as A'.
    pose proof (Sequencer_sem SIGALRM s g1) as Sm.
    pose proof (Sequencer_abortS SIGALRM s g1) as Ab.
    unfold g1 in A' at 2. rewrite external_armed, A in A'.
    destruct (stops g1) eqn:St; cbn [andb negb] in A'.
    + rewrite run_not_armed by assumption. cbn [fst snd length total_posts fold_right
        terminating_ticks]. rewrite A'.
      repeat split; try exact Ab; try lia; try (f_equal; lia).
    + specialize (IH (S k) (kz + 1) _ s A'). cbn zeta in IH.
      destruct (armed (snd (run env fuel (S k) (exec (Sequencer SIGALRM) g1))));
        destruct IH as (I1 & I2 & I3 & I4); rewrite I1, I2, I3, I4;
        repeat split; try congruence; try lia; try (f_equal; lia).
Qed.

End ForcedRelease.

(** X6.  A run that ends with the timer stopped has run the shutdown block
    exactly once, at its last tick: every service has then been posted one
    token beyond those of the modulo tests, and every abort flag is TRUE.
    While the timer is still armed the shutdown block has not run, no such
    token has been posted and the abort flags are as they were. *)
Theorem one_forced_release_per_run (env : environment) (fuel : nat)
    (g : globals) (s : service) :
  armed g = true ->
  let r := run env fuel 0 g in
  let n := Z.of_nat (length (fst r)) in
  if armed (snd r)
  then total_posts s Shutdown (fst r) = 0 /\
       terminating_ticks 0 (fst r) = [] /\
       abortS s (snd r) = abortS s g /\
       sem s (snd r) = sem s g + total_posts s Release (fst r)
  else total_posts s Shutdown (fst r) = 1 /\
       terminating_ticks 0 (fst r) = [n - 1] /\
       abortS s (snd r) = TRUE /\
       sem s (snd r) = sem s g + total_posts s Release (fst r) + 1.
Proof.
  intros A. apply (run_forced env fuel 0%nat 0 g s A).
Qed.

Lemma one_forced_release_per_run_witness :
  let r := run (abort_before 5) 40 0 (armed_globals LCM_PERIOD) in
  armed (snd r) = false /\
  total_posts S2 Shutdown (fst r) = 1 /\
  terminating_ticks 0 (fst r) = [5] /\
  sem S2 (snd r) = total_posts S2 Release (fst r) + 1.
Proof.
  pose proof (one_forced_release_per_run (abort_before 5) 40
                (armed_globals LCM_PERIOD) S2 eq_refl) as H.
  cbv zeta in H.
  assert (E : armed (snd (run (abort_before 5) 40 0 (armed_globals LCM_PERIOD)))
              = false) by (vm_compute; reflexivity).
  rewrite E in H. destruct H as (H1 & H2 & _ & H4).
  cbv zeta. split; [exact E|]. split; [exact H1|]. split; [exact H2|exact H4].
Defined.

(** * More on the running system *)

Ltac thread_frame E pl :=
  destruct pl;
  unfold sem_post, timer_settime, when, bind, load, store, emit, ret in E;
  cbn [fst snd sem abortS] in E;
  repeat match type of E with
    | context [if ?b then _ else _] => destruct b eqn:?
    end;
  try discriminate;
  injection E as <- <- <-.

Lemma step_thread c y y' s :
  acts_for c = Some s ->
  step c y = Some y' ->
  handler y' = handler y /\
  abortTest (shared y') = abortTest (shared y) /\
  seqCnt (shared y') = seqCnt (shared y) /\
  sequencePeriods (shared y') = sequencePeriods (shared y) /\
  timer_1 (shared y') = timer_1 (shared y) /\
  itime (shared y') = itime (shared y) /\
  (forall s', abortS s' (shared y') = abortS s' (shared y)) /\
  (forall s' w, posts s' w (written y') = posts s' w (written y)) /\
  (forall s', s' <> s ->
     sem s' (shared y') = sem s' (shared y) /\
     running y' s' = running y s' /\
     taken s' (written y') = taken s' (written y) /\
     interrupted s' (written y') = interrupted s' (written y) /\
     reports s' (written y') = reports s' (written y)).
Proof.
  intros C H. destruct c as [| |s0 now cpu|s0|]; try discriminate;
    injection C as ->; unfold step in H.
  - destruct (Service s now cpu (running y s) (shared y)) as [[r g'] o] eqn:E.
    destruct r as [t|]; [|discriminate]. injection H as <-.
    unfold Service in E. destruct (running y s) as [pl cnt].
    cbn [at_place SCnt] in E. cbn [handler shared written running].
    destruct s; thread_frame E pl;
      repeat split; intros;
      repeat match goal with
        | x : service |- _ => destruct x
        | x : site |- _ => destruct x
        end;
      try congruence;
      cbn [set_running service_eqb]; counts;
      rewrite ?posts_nil, ?app_nil_r, ?Z.add_0_r; reflexivity.
  - destruct (Service_interrupted s (running y s) (shared y)) as [[r g'] o] eqn:E.
    destruct r as [t|]; [|discriminate]. injection H as <-.
    unfold Service_interrupted in E. destruct (running y s) as [pl cnt].
    cbn [at_place SCnt] in E. cbn [handler shared written running].
    destruct s; thread_frame E pl;
      repeat split; intros;
      repeat match goal with
        | x : service |- _ => destruct x
        | x : site |- _ => destruct x
        end;
      try congruence;
      cbn [set_running service_eqb]; counts;
      rewrite ?posts_nil, ?app_nil_r, ?Z.add_0_r; reflexivity.
Qed.

Lemma step_thread_moves c y y' s :
  acts_for c = Some s ->
  step c y = Some y' ->
  let t := running y s in
  let t' := running y' s in
  let d_sem := sem s (shared y') - sem s (shared y) in
  let d_taken := taken s (written y') - taken s (written y) in
  let d_int := interrupted s (written y') - interrupted s (written y) in
  let d_rep := reports s (written y') - reports s (written y) in
  match at_place t with
  | AtStart =>
      at_place t' = AtWhile /\ SCnt t' = SCnt t /\
      d_sem = 0 /\ d_taken = 0 /\ d_int = 0 /\ d_rep = 0
  | AtWhile =>
      at_place t' = (if truthy (abortS s (shared y)) then Exited else AtWait) /\
      SCnt t' = SCnt t /\ d_sem = 0 /\ d_taken = 0 /\ d_int = 0 /\ d_rep = 0
  | AtWait =>
      at_place t' = AtCount /\ SCnt t' = SCnt t /\ d_rep = 0 /\
      (is_interrupt_of s c = false /\ 0 < sem s (shared y) /\
       d_sem = -1 /\ d_taken = 1 /\ d_int = 0 \/
       is_interrupt_of s c = true /\ sem s (shared y) <= 0 /\
       d_sem = 0 /\ d_taken = 0 /\ d_int = 1)
  | AtCount =>
      at_place t' = AtReport /\ SCnt t' = wrap64 (SCnt t + 1) /\
      d_sem = 0 /\ d_taken = 0 /\ d_int = 0 /\ d_rep = 0
  | AtReport =>
      at_place t' = AtWhile /\ SCnt t' = SCnt t /\
      d_sem = 0 /\ d_taken = 0 /\ d_int = 0 /\ d_rep = 1
  | Exited => False
  end.
Proof.
  intros C H. destruct c as [| |s0 now cpu|s0|]; try discriminate;
    injection C as ->; unfold step in H.
  - destruct (Service s now cpu (running y s) (shared y)) as [[r g'] o] eqn:E.
    destruct r as [t|]; [|discriminate]. injection H as <-.
    unfold Service in E. destruct (running y s) as [pl cnt].
    cbn [at_place SCnt] in E. cbn [handler shared written running].
    destruct s; thread_frame E pl; cbn [set_running service_eqb at_place SCnt];
      counts; rewrite ?app_nil_r;
      cbn [sem semS1 semS2 semS3 abortS abortS1 abortS2 abortS3 is_interrupt_of] in *;
      repeat match goal with
        | H : (0 <? _) = true |- _ => apply Z.ltb_lt in H
        | H : negb ?b = _ |- _ => destruct b; try discriminate H
        end;
      repeat split; try reflexivity; try lia;
      try (left; repeat split; try reflexivity; lia).
  - destruct (Service_interrupted s (running y s) (shared y)) as [[r g'] o] eqn:E.
    destruct r as [t|]; [|discriminate]. injection H as <-.
    unfold Service_interrupted in E. destruct (running y s) as [pl cnt].
    cbn [at_place SCnt] in E. cbn [handler shared written running].
    destruct s; thread_frame E pl; cbn [set_running service_eqb at_place SCnt];
      counts; rewrite ?app_nil_r;
      cbn [sem semS1 semS2 semS3 abortS abortS1 abortS2 abortS3 is_interrupt_of
             service_eqb] in *;
      repeat match goal with
        | H : (0 <? _) = false |- _ => apply Z.ltb_ge in H
        end;
      repeat split; try reflexivity; try lia;
      try (right; repeat split; try reflexivity; lia).
Qed.

Lemma step_quiet c y y' :
  c = Expire \/ c = SetAbort ->
  step c y = Some y' ->
  running y' = running y /\ written y' = written y /\
  seqCnt (shared y') = seqCnt (shared y) /\
  timer_1 (shared y') = timer_1 (shared y) /\
  (forall s, sem s (shared y') = sem s (shared y) /\
             abortS s (shared y') = abortS s (shared y)).
Proof.
  intros [->| ->] H; unfold step in H.
  - destruct (handler y); try discriminate.
    destruct (armed (shared y)); try discriminate.
    injection H as <-. cbn. repeat split; reflexivity.
  - injection H as <-. cbn. repeat split; try reflexivity; destruct s; reflexivity.
Qed.

Lemma choice_cases c :
  (c = Expire \/ c = SetAbort) \/ c = Handle \/ exists s, acts_for c = Some s.
Proof.
  destruct c; auto; right; right; eexists; reflexivity.
Qed.

Lemma service_eq_dec (a b : service) : {a = b} + {a <> b}.
Proof. decide equality. Qed.

Lemma armed_timer g g' : timer_1 g' = timer_1 g -> armed g' = armed g.
Proof. unfold armed. now intros ->. Qed.

(** *** The count of a semaphore *)

Lemma sem_nonneg_step c y y' s :
  step c y = Some y' -> 0 <= sem s (shared y) -> 0 <= sem s (shared y').
Proof.
  intros H N. destruct (choice_cases c) as [Q|[->|[s0 A]]].
  - destruct (step_quiet c y y' Q H) as (_ & _ & _ & _ & F).
    destruct (F s) as [-> _]. exact N.
  - apply step_Handle in H as (_ & Hg & _).
    destruct (statement_effect (handler y) (shared y) s) as (_ & _ & _ & _ & E & _).
    rewrite Hg, E.
    pose proof (posts_nonneg s Release (snd (Sequencer_statement (handler y) (shared y)))).
    pose proof (posts_nonneg s Shutdown (snd (Sequencer_statement (handler y) (shared y)))).
    lia.
  - destruct (service_eq_dec s s0) as [<-|D].
    + pose proof (step_thread_moves c y y' s A H) as M. cbv zeta in M.
      destruct (at_place (running y s)); try contradiction; lia.
    + destruct (step_thread c y y' s0 A H) as (_ & _ & _ & _ & _ & _ & _ & _ & F).
      destruct (F s D) as [-> _]. exact N.
Qed.

Lemma execute_sem_nonneg cs : forall y y' s,
  execute cs y = Some y' -> 0 <= sem s (shared y) -> 0 <= sem s (shared y').
Proof.
  induction cs as [|c cs IH]; intros y y' s H N; cbn [execute] in H.
  - injection H as <-. exact N.
  - destruct (step c y) as [y1|] eqn:E; [|discriminate].
    apply (IH y1 y' s H). apply (sem_nonneg_step c y y1 s E N).
Qed.

(** X7.  In every state the running system reaches the count of each
    semaphore is non-negative: a service has never taken more tokens than
    the handler has posted to it. *)
Theorem tokens_are_never_overdrawn (cs : list choice) (g : globals)
    (y : system) (s : service) :
  fresh g ->
  execute cs (start g) = Some y ->
  0 <= sem s (shared y) /\
  taken s (written y) <=
    posts s Release (written y) + posts s Shutdown (written y) /\
  sem s (shared y) =
    posts s Release (written y) + posts s Shutdown (written y) - taken s (written y).
Proof.
  intros F E.
  assert (N : 0 <= sem s (shared y)).
  { apply (execute_sem_nonneg cs (start g) y s E). cbn [start shared].
    destruct (F s) as [-> _]. lia. }
  destruct (execute_inv cs (start g) y E) as [T _].
  { intros s'. now apply thread_inv_start. }
  { now apply handler_inv_start. }
  destruct (T s) as (_ & _ & _ & K & _). lia.
Qed.

Lemma tokens_are_never_overdrawn_witness :
  let y := outcome_of both_tokens (armed_globals 1) in
  sem S1 (shared y) = 0 /\ taken S1 (written y) = 2.
Proof.
  assert (E : execute both_tokens (start (armed_globals 1)) =
              Some (outcome_of both_tokens (armed_globals 1)))
    by (vm_compute; reflexivity).
  destruct (tokens_are_never_overdrawn both_tokens (armed_globals 1)
              (outcome_of both_tokens (armed_globals 1)) S1
              (fresh_armed_globals 1) E) as (_ & _ & H).
  cbv zeta. split; [rewrite H|]; vm_compute; reflexivity.
Defined.

(** *** Services only consume *)

(** X8.  A statement of a service, completed or interrupted wait included,
    never posts a token and never changes [abortTest], an abort flag,
    [seqCnt], [sequencePeriods], [itime] or the timer; it leaves the handler
    where it is and the other services' semaphores, threads and counts
    untouched; and it lowers its own semaphore by one exactly when it takes
    a token, which it does only from a positive count. *)
Theorem services_only_consume (c : choice) (y y' : system) (s : service) :
  acts_for c = Some s ->
  step c y = Some y' ->
  handler y' = handler y /\
  abortTest (shared y') = abortTest (shared y) /\
  seqCnt (shared y') = seqCnt (shared y) /\
  sequencePeriods (shared y') = sequencePeriods (shared y) /\
  timer_1 (shared y') = timer_1 (shared y) /\
  itime (shared y') = itime (shared y) /\
  (forall s', abortS s' (shared y') = abortS s' (shared y)) /\
  (forall s' w, posts s' w (written y') = posts s' w (written y)) /\
  (forall s', s' <> s ->
     sem s' (shared y') = sem s' (shared y) /\
     running y' s' = running y s' /\
     taken s' (written y') = taken s' (written y) /\
     reports s' (written y') = reports s' (written y)) /\
  sem s (shared y') =
    sem s (shared y) - (taken s (written y') - taken s (written y)) /\
  (taken s (written y') = taken s (written y) \/
   taken s (written y') = taken s (written y) + 1 /\ 0 < sem s (shared y)).
Proof.
  intros A H.
  destruct (step_thread c y y' s A H) as (F1 & F2 & F3 & F4 & F5 & F6 & F7 & F8 & F9).
  pose proof (step_thread_moves c y y' s A H) as M. cbv zeta in M.
  repeat split; auto;
    try (match goal with
         | D : _ <> _ |- _ => destruct (F9 _ D) as (? & ? & ? & ? & ?); assumption
         end).
  - destruct (at_place (running y s)); try contradiction; lia.
  - destruct (at_place (running y s)); try contradiction; lia.
Qed.

Lemma services_only_consume_witness :
  let y := outcome_of [Run S2 0 3; Run S2 0 3; Expire; Handle; Handle]
             (armed_globals LCM_PERIOD) in
  let y' := outcome_of [Run S2 0 3; Run S2 0 3; Expire; Handle; Handle; Run S2 0 3]
              (armed_globals LCM_PERIOD) in
  step (Run S2 0 3) y = Some y' /\
  sem S2 (shared y) = 1 /\ sem S2 (shared y') = 0 /\
  sem S1 (shared y') = sem S1 (shared y) /\
  seqCnt (shared y') = seqCnt (shared y).
Proof.
  assert (E : step (Run S2 0 3)
                (outcome_of [Run S2 0 3; Run S2 0 3; Expire; Handle; Handle]
                   (armed_globals LCM_PERIOD)) =
              Some (outcome_of [Run S2 0 3; Run S2 0 3; Expire; Handle; Handle;
                                Run S2 0 3] (armed_globals LCM_PERIOD)))
    by (vm_compute; reflexivity).
  destruct (services_only_consume (Run S2 0 3) _ _ S2 eq_refl E)
    as (_ & _ & F3 & _ & _ & _ & _ & _ & F9 & _).
  cbv zeta. split; [exact E|]. split; [vm_compute; reflexivity|].
  split; [vm_compute; reflexivity|]. split; [|exact F3].
  apply (F9 S1). discriminate.
Defined.

(** *** Cancellation *)

Lemma cancel_step c y y' s :
  truthy (abortS s (shared y)) = true ->
  step c y = Some y' ->
  truthy (abortS s (shared y')) = true /\
  taken s (written y') + interrupted s (written y') + waiting (running y' s) <=
    taken s (written y) + interrupted s (written y) + waiting (running y s) /\
  reports s (written y') + owing (running y' s) <=
    reports s (written y) + owing (running y s).
Proof.
  intros T H. destruct (choice_cases c) as [Q|[->|[s0 A]]].
  - destruct (step_quiet c y y' Q H) as (-> & -> & _ & _ & F).
    destruct (F s) as [_ ->]. split; [exact T|lia].
  - apply step_Handle in H as (_ & Hg & _ & Hr & Hw).
    destruct (statement_effect (handler y) (shared y) s)
      as (E1 & E2 & E3 & _ & _ & E6).
    rewrite Hg, Hr, Hw, taken_app, interrupted_app, reports_app, E1, E2, E3.
    split; [auto|lia].
  - destruct (step_thread c y y' s0 A H) as (_ & _ & _ & _ & _ & _ & F7 & _ & F9).
    rewrite F7. split; [exact T|].
    destruct (service_eq_dec s s0) as [<-|D].
    + pose proof (step_thread_moves c y y' s A H) as M. cbv zeta in M.
      unfold waiting, owing.
      destruct (at_place (running y s)); try contradiction;
        try rewrite T in M;
        destruct M as (-> & M); lia.
    + destruct (F9 s D) as (_ & -> & -> & -> & ->). lia.
Qed.

(** X9.  Cancellation is cooperative and prompt.  Once the abort flag of a
    service is set it stays set, and from then on the service returns from
    at most one more wait - none unless it is in sem_wait at that moment -
    and writes at most one more record, however the system runs on. *)
Theorem cancellation_is_prompt (cs : list choice) (y y' : system) (s : service) :
  truthy (abortS s (shared y)) = true ->
  execute cs y = Some y' ->
  truthy (abortS s (shared y')) = true /\
  taken s (written y') + interrupted s (written y') <=
    taken s (written y) + interrupted s (written y) + waiting (running y s) /\
  reports s (written y') <= reports s (written y) + owing (running y s) /\
  (at_place (running y s) = Exited -> running y' s = running y s).
Proof.
  revert y. induction cs as [|c cs IH]; intros y T H; cbn [execute] in H.
  - injection H as <-. unfold waiting, owing.
    destruct (at_place (running y s)); repeat split; auto; lia.
  - destruct (step c y) as [y1|] eqn:E; [|discriminate].
    destruct (cancel_step c y y1 s T E) as (T1 & W1 & R1).
    destruct (IH y1 T1 H) as (T2 & W2 & R2 & X2).
    assert (P : 0 <= waiting (running y1 s) /\ 0 <= owing (running y1 s)).
    { unfold waiting, owing. destruct (at_place (running y1 s)); lia. }
    repeat split; auto; try lia.
    intros X. rewrite X2.
    + destruct (choice_cases c) as [Q|[->|[s0 A]]].
      * now destruct (step_quiet c y y1 Q E) as (-> & _).
      * apply step_Handle in E as (_ & _ & _ & -> & _). reflexivity.
      * destruct (service_eq_dec s s0) as [<-|D].
        -- pose proof (step_thread_moves c y y1 s A E) as M. cbv zeta in M.
           rewrite X in M. contradiction.
        -- destruct (step_thread c y y1 s0 A E)
             as (_ & _ & _ & _ & _ & _ & _ & _ & F9).
           now destruct (F9 s D) as (_ & -> & _).
    + destruct (choice_cases c) as [Q|[->|[s0 A]]].
      * destruct (step_quiet c y y1 Q E) as (-> & _). exact X.
      * apply step_Handle in E as (_ & _ & _ & -> & _). exact X.
      * destruct (service_eq_dec s s0) as [<-|D].
        -- pose proof (step_thread_moves c y y1 s A E) as M. cbv zeta in M.
           rewrite X in M. contradiction.
        -- destruct (step_thread c y y1 s0 A E)
             as (_ & _ & _ & _ & _ & _ & _ & _ & F9).
           destruct (F9 s D) as (_ & -> & _). exact X.
Qed.

Lemma cancellation_is_prompt_witness :
  let y := outcome_of shutdown_while_waiting (armed_globals 1) in
  let y' := after [Run S1 1 2; Run S1 1 2; Run S1 1 2; Run S1 1 2] y in
  truthy (abortS S1 (shared y)) = true /\
  sem S1 (shared y) = 2 /\
  at_place (running y' S1) = Exited /\
  taken S1 (written y') <= taken S1 (written y) + 1 /\
  reports S1 (written y') <= reports S1 (written y) + 1.
Proof.
  assert (T : truthy (abortS S1 (shared (outcome_of shutdown_while_waiting
                                           (armed_globals 1)))) = true)
    by (vm_compute; reflexivity).
  assert (E : execute [Run S1 1 2; Run S1 1 2; Run S1 1 2; Run S1 1 2]
                (outcome_of shutdown_while_waiting (armed_globals 1)) =
              Some (after [Run S1 1 2; Run S1 1 2; Run S1 1 2; Run S1 1 2]
                      (outcome_of shutdown_while_waiting (armed_globals 1))))
    by (vm_compute; reflexivity).
  destruct (cancellation_is_prompt _ _ _ S1 T E) as (_ & W & R & _).
  cbv zeta. split; [exact T|]. split; [vm_compute; reflexivity|].
  split; [vm_compute; reflexivity|].
  assert (I : 0 <= interrupted S1 (written (after [Run S1 1 2; Run S1 1 2; Run S1 1 2; Run S1 1 2]
                      (outcome_of shutdown_while_waiting (armed_globals 1)))))
    by (unfold interrupted; lia).
  assert (I0 : interrupted S1 (written (outcome_of shutdown_while_waiting
                                          (armed_globals 1))) = 0)
    by (vm_compute; reflexivity).
  assert (W0 : waiting (running (outcome_of shutdown_while_waiting
                                   (armed_globals 1)) S1) = 1)
    by (vm_compute; reflexivity).
  assert (O0 : owing (running (outcome_of shutdown_while_waiting
                                 (armed_globals 1)) S1) = 1)
    by (vm_compute; reflexivity).
  split; lia.
Defined.

(** *** After the shutdown *)

Lemma idle_step c y y' :
  handler y = Idle ->
  armed (shared y) = false ->
  step c y = Some y' ->
  handler y' = Idle /\ armed (shared y') = false /\
  seqCnt (shared y') = seqCnt (shared y) /\
  (forall s w, posts s w (written y') = posts s w (written y)) /\
  (forall s, abortS s (shared y') = abortS s (shared y)) /\
  (forall s, sem s (shared y') <= sem s (shared y)) /\
  (forall s, is_interrupt_of s c = false ->
             at_place (running y s) = AtWait -> sem s (shared y) <= 0 ->
             running y' s = running y s /\ sem s (shared y') = sem s (shared y) /\
             reports s (written y') = reports s (written y)).
Proof.
  intros I A H. destruct (choice_cases c) as [[->| ->]|[->|[s0 C]]].
  - unfold step in H. rewrite I, A in H. discriminate.
  - unfold step in H. injection H as <-. cbn [handler shared written running].
    repeat split; auto; intros;
      try exact A; try (destruct s; cbn; lia); try (destruct s; reflexivity).
  - unfold step in H. rewrite I in H. discriminate.
  - destruct (step_thread c y y' s0 C H) as (F1 & _ & F3 & _ & F5 & _ & F7 & F8 & F9).
    pose proof (step_thread_moves c y y' s0 C H) as M. cbv zeta in M.
    rewrite F1, (armed_timer _ _ F5).
    repeat split; auto.
    + intros s. destruct (service_eq_dec s s0) as [->|D].
      * destruct (at_place (running y s0)); try contradiction; lia.
      * destruct (F9 s D) as (-> & _). lia.
    + destruct (service_eq_dec s s0) as [->|D].
      * destruct (at_place (running y s0)); try discriminate.
        destruct M as (_ & _ & _ & [(_ & M & _)|(M & _)]); [lia|].
        destruct c; try discriminate. cbn in C. injection C as ->. congruence.
      * now destruct (F9 s D) as (_ & -> & _).
    + destruct (service_eq_dec s s0) as [->|D].
      * destruct (at_place (running y s0)); try discriminate.
        destruct M as (_ & _ & _ & [(_ & M & _)|(M & _)]); [lia|].
        destruct c; try discriminate. cbn in C. injection C as ->. congruence.
      * now destruct (F9 s D) as (-> & _).
    + destruct (service_eq_dec s s0) as [->|D].
      * destruct (at_place (running y s0)); try discriminate.
        destruct M as (_ & _ & _ & [(_ & M & _)|(M & _)]); [lia|].
        destruct c; try discriminate. cbn in C. injection C as ->. congruence.
      * now destruct (F9 s D) as (_ & _ & _ & _ & ->).
Qed.

(** X10.  When the handler has returned with the timer stopped, nothing in
    the program starts it again: the timer never expires, the handler never
    runs, so no token is posted any more, the cycle counter and the abort
    flags keep their values, and the count of a semaphore can only fall. *)
Theorem nothing_is_posted_after_shutdown (cs : list choice) (y y' : system) :
  handler y = Idle ->
  armed (shared y) = false ->
  execute cs y = Some y' ->
  existsb is_handler_choice cs = false /\
  handler y' = Idle /\ armed (shared y') = false /\
  seqCnt (shared y') = seqCnt (shared y) /\
  (forall s w, posts s w (written y') = posts s w (written y)) /\
  (forall s, abortS s (shared y') = abortS s (shared y)) /\
  (forall s, sem s (shared y') <= sem s (shared y)).
Proof.
  revert y. induction cs as [|c cs IH]; intros y I A H; cbn [execute] in H.
  - injection H as <-. repeat split; auto. intros; lia.
  - destruct (step c y) as [y1|] eqn:E; [|discriminate].
    destruct (idle_step c y y1 I A E) as (I1 & A1 & C1 & P1 & B1 & S1' & _).
    destruct (IH y1 I1 A1 H) as (N2 & I2 & A2 & C2 & P2 & B2 & S2').
    cbn [existsb]. rewrite N2.
    repeat split; auto; try congruence.
    + rewrite orb_false_r.
      destruct c; try reflexivity; unfold step in E; rewrite I, ?A in E;
        discriminate.
    + intros s. specialize (S1' s). specialize (S2' s). lia.
Qed.

Lemma nothing_is_posted_after_shutdown_witness :
  let y := outcome_of both_tokens (armed_globals 1) in
  let y' := after [SetAbort; Run S2 3 3; Run S2 3 3] y in
  handler y = Idle /\ armed (shared y) = false /\
  posts S2 Release (written y') + posts S2 Shutdown (written y') = 2 /\
  sem S2 (shared y') = 2.
Proof.
  assert (I : handler (outcome_of both_tokens (armed_globals 1)) = Idle)
    by (vm_compute; reflexivity).
  assert (A : armed (shared (outcome_of both_tokens (armed_globals 1))) = false)
    by (vm_compute; reflexivity).
  assert (E : execute [SetAbort; Run S2 3 3; Run S2 3 3]
                (outcome_of both_tokens (armed_globals 1)) =
              Some (after [SetAbort; Run S2 3 3; Run S2 3 3]
                      (outcome_of both_tokens (armed_globals 1))))
    by (vm_compute; reflexivity).
  pose proof (nothing_is_posted_after_shutdown _ _ _ I A E) as H.
  destruct H as (_ & _ & _ & _ & P & _ & _).
  cbv zeta. split; [exact I|]. split; [exact A|].
  split; [rewrite !P|]; vm_compute; reflexivity.
Defined.

(** X11.  The shutdown block posts its tokens before it sets the abort
    flags.  A service that is in sem_wait on an empty semaphore when the
    handler has returned and the timer is stopped therefore stays there for
    ever, whatever else runs, unless its wait is interrupted: it writes no
    further record and never exits - also when its abort flag is set. *)
Theorem a_service_can_wait_for_ever (s : service) (cs : list choice)
    (y y' : system) :
  handler y = Idle ->
  armed (shared y) = false ->
  at_place (running y s) = AtWait ->
  sem s (shared y) <= 0 ->
  existsb (is_interrupt_of s) cs = false ->
  execute cs y = Some y' ->
  running y' s = running y s /\
  sem s (shared y') = sem s (shared y) /\
  reports s (written y') = reports s (written y).
Proof.
  revert y. induction cs as [|c cs IH]; intros y I A W Z N H; cbn [execute] in H.
  - injection H as <-. auto.
  - destruct (step c y) as [y1|] eqn:E; [|discriminate].
    cbn [existsb] in N. apply orb_false_iff in N as [N1 N2].
    destruct (idle_step c y y1 I A E) as (I1 & A1 & _ & _ & _ & _ & K).
    destruct (K s N1 W Z) as (R1 & S1' & P1).
    destruct (IH y1 I1 A1) as (R2 & S2' & P2); auto; try congruence.
    repeat split; congruence.
Qed.

Lemma a_service_can_wait_for_ever_witness :
  let y := outcome_of forced_token_first (armed_globals 1) in
  let y' := after [Run S2 3 3; SetAbort; Run S3 4 2; Run S2 3 3] y in
  execute forced_token_first (start (armed_globals 1)) = Some y /\
  truthy (abortS S1 (shared y)) = true /\
  taken S1 (written y) = 2 /\
  at_place (running y' S1) = AtWait /\
  step (Run S1 5 2) y' = None.
Proof.
  assert (X : execute forced_token_first (start (armed_globals 1)) =
              Some (outcome_of forced_token_first (armed_globals 1)))
    by (vm_compute; reflexivity).
  assert (E : execute [Run S2 3 3; SetAbort; Run S3 4 2; Run S2 3 3]
                (outcome_of forced_token_first (armed_globals 1)) =
              Some (after [Run S2 3 3; SetAbort; Run S3 4 2; Run S2 3 3]
                      (outcome_of forced_token_first (armed_globals 1))))
    by (vm_compute; reflexivity).
  assert (I : handler (outcome_of forced_token_first (armed_globals 1)) = Idle)
    by (vm_compute; reflexivity).
  assert (A : armed (shared (outcome_of forced_token_first (armed_globals 1)))
              = false) by (vm_compute; reflexivity).
  assert (W : at_place (running (outcome_of forced_token_first (armed_globals 1))
                          S1) = AtWait) by (vm_compute; reflexivity).
  assert (Z0 : sem S1 (shared (outcome_of forced_token_first (armed_globals 1)))
               <= 0) by (vm_compute; discriminate).
  pose proof (a_service_can_wait_for_ever S1
                [Run S2 3 3; SetAbort; Run S3 4 2; Run S2 3 3] _ _
                I A W Z0 eq_refl E) as H.
  destruct H as (R & _ & _).
  cbv zeta. split; [exact X|]. split; [vm_compute; reflexivity|].
  split; [vm_compute; reflexivity|]. split; [rewrite R|];
    vm_compute; reflexivity.
Defined.

Lemma set_running_same s t r : set_running s t r s = t.
Proof. unfold set_running. destruct s; reflexivity. Qed.

Lemma step_Run_at s now cpu g h r o pl cnt :
  r s = {| at_place := pl; SCnt := cnt |} ->
  step (Run s now cpu) {| shared := g; handler := h; running := r; written := o |} =
  match pl with
  | AtStart =>
      Some {| shared := g; handler := h;
              running := set_running s {| at_place := AtWhile; SCnt := cnt |} r;
              written := o ++ [Printf (started_text s) [now]] |}
  | AtWhile =>
      Some {| shared := g; handler := h;
              running := set_running s
                           {| at_place := if truthy (abortS s g) then Exited else AtWait;
                              SCnt := cnt |} r;
              written := o ++ [] |}
  | AtWait =>
      if 0 <? sem s g
      then Some {| shared := set_sem s (sem s g - 1) g; handler := h;
                   running := set_running s {| at_place := AtCount; SCnt := cnt |} r;
                   written := o ++ [Sem_wait s 0] |}
      else None
  | AtCount =>
      Some {| shared := g; handler := h;
              running := set_running s
                           {| at_place := AtReport; SCnt := wrap64 (cnt + 1) |} r;
              written := o ++ [] |}
  | AtReport =>
      Some {| shared := g; handler := h;
              running := set_running s {| at_place := AtWhile; SCnt := cnt |} r;
              written := o ++ [Report s cnt now cpu] |}
  | Exited => None
  end.
Proof.
  intros R. unfold step, Service. cbn [running shared handler written].
  rewrite R. cbn [at_place SCnt].
  unfold bind, load, store, emit, ret; cbn [fst snd].
  destruct pl; try reflexivity.
  - destruct (truthy (abortS s g)); reflexivity.
  - destruct (0 <? sem s g); reflexivity.
Qed.

Lemma sem_set_sem s v g : sem s (set_sem s v g) = v.
Proof. destruct s; reflexivity. Qed.

Lemma abortS_set_sem s s' v g : abortS s (set_sem s' v g) = abortS s g.
Proof. destruct s, s'; reflexivity. Qed.

(** X12.  What the token of the shutdown block is for: a service that is in
    sem_wait with its abort flag set and a token on its semaphore takes the
    token, counts, writes one record and exits, in four statements of its
    own. *)
Theorem forced_token_ends_a_waiting_service (s : service) (y : system)
    (now cpu : Z) :
  at_place (running y s) = AtWait ->
  0 < sem s (shared y) ->
  truthy (abortS s (shared y)) = true ->
  exists y',
    execute [Run s now cpu; Run s now cpu; Run s now cpu; Run s now cpu] y
      = Some y' /\
    running y' s = {| at_place := Exited; SCnt := wrap64 (SCnt (running y s) + 1) |} /\
    written y' = written y ++
                 [Sem_wait s 0; Report s (wrap64 (SCnt (running y s) + 1)) now cpu] /\
    sem s (shared y') = sem s (shared y) - 1.
Proof.
  intros W P T. destruct y as [g h r o]. cbn [running shared written] in *.
  destruct (r s) as [pl cnt] eqn:R. cbn [at_place SCnt] in *. subst pl.
  apply Z.ltb_lt in P.
  eexists. split.
  - cbn [execute].
    rewrite (step_Run_at s now cpu g h r o AtWait cnt R), P.
    rewrite (step_Run_at s now cpu _ h _ _ AtCount cnt (set_running_same _ _ _)).
    rewrite (step_Run_at s now cpu _ h _ _ AtReport (wrap64 (cnt + 1))
               (set_running_same _ _ _)).
    rewrite (step_Run_at s now cpu _ h _ _ AtWhile (wrap64 (cnt + 1))
               (set_running_same _ _ _)).
    rewrite abortS_set_sem, T. reflexivity.
  - cbn [running shared written]. rewrite set_running_same, sem_set_sem.
    rewrite !app_nil_r, <- app_assoc. cbn [app]. repeat split; reflexivity.
Qed.

Lemma forced_token_ends_a_waiting_service_witness :
  let y := outcome_of shutdown_while_waiting (armed_globals 1) in
  exists y',
    execute [Run S1 7 2; Run S1 7 2; Run S1 7 2; Run S1 7 2] y = Some y' /\
    running y' S1 = {| at_place := Exited; SCnt := 1 |} /\
    sem S1 (shared y') = 1.
Proof.
  destruct (forced_token_ends_a_waiting_service S1
              (outcome_of shutdown_while_waiting (armed_globals 1)) 7 2)
    as (y' & E & R & _ & S);
    [vm_compute; reflexivity | vm_compute; reflexivity | vm_compute; reflexivity |].
  exists y'. split; [exact E|]. split; [exact R|]. rewrite S.
  vm_compute; reflexivity.
Defined.

(** * Signals and the waits *)














(** Had the handler been installed without SA_RESTART, the same delivery
    would make sem_wait return -1, and the service, which does not look at
    the result, would go on to count. *)
Lemma without_restart_the_wait_returns :
  let y := performed signal_flags waiting_after_tick_0 (armed_globals LCM_PERIOD) in
  let y' := delivered 0 (Some S1) handler_run y in
  deliver 0 (Some S1) handler_run y = Some y' /\
  running y' S1 = {| at_place := AtCount; SCnt := 1 |} /\
  interrupted S1 (written y') = 1 /\
  existsb event_is_failure (written y') = true.
Proof. vm_compute. repeat split; reflexivity. Qed.

(** * [tsc_read] and [syslogPrint] *)

Lemma shiftl_lor_add hi lo :
  0 <= lo < 2 ^ 32 -> 0 <= hi ->
  Z.lor (Z.shiftl hi 32) lo = hi * 2 ^ 32 + lo.
Proof.
  intros L H.
  rewrite Z.shiftl_mul_pow2 by lia.
  rewrite <- Z.lxor_lor, <- Z.add_nocarry_lxor; try reflexivity.
  all: apply Z.bits_inj'; intros n Hn; rewrite Z.land_spec, Z.bits_0.
  all: destruct (Z.lt_ge_cases n 32) as [Lt|Ge].
  all: try (rewrite Z.mul_pow2_bits_low by lia; reflexivity).
  all: rewrite (Z.bits_above_log2 lo n), andb_false_r; try reflexivity; try lia.
  all: destruct (Z.eq_dec lo 0) as [->|NZ]; [cbn; lia|].
  all: apply Z.lt_le_trans with 32; [|lia].
  all: apply Z.log2_lt_pow2; lia.
Qed.

(** X13.  [tsc_read] puts the two 32-bit halves of the time-stamp counter
    together without loss: the result is hi * 2^32 + lo, it fits 64 bits,
    and each half can be read back from it. *)
Theorem tsc_read_halves (lo hi : Z) :
  0 <= lo < 2 ^ 32 ->
  0 <= hi < 2 ^ 32 ->
  tsc_read lo hi = hi * 2 ^ 32 + lo /\
  0 <= tsc_read lo hi < 2 ^ 64 /\
  Z.shiftr (tsc_read lo hi) 32 = hi /\
  Z.land (tsc_read lo hi) (2 ^ 32 - 1) = lo.
Proof.
  intros L H. unfold tsc_read, wrap64.
  assert (S : Z.shiftl hi 32 mod 2 ^ 64 = Z.shiftl hi 32).
  { apply Z.mod_small. rewrite Z.shiftl_mul_pow2 by lia. lia. }
  rewrite S, shiftl_lor_add by lia.
  split; [reflexivity|]. split; [lia|]. split.
  - rewrite Z.shiftr_div_pow2 by lia.
    rewrite Z.div_add_l by lia. rewrite Z.div_small by lia. lia.
  - change (2 ^ 32 - 1) with (Z.ones 32). rewrite Z.land_ones by lia.
    rewrite Z.add_comm, Z.mod_add by lia. apply Z.mod_small. lia.
Qed.

Lemma tsc_read_halves_witness :
  tsc_read 4294967295 1 = 8589934591 /\
  Z.shiftr (tsc_read 4294967295 1) 32 = 1.
Proof.
  destruct (tsc_read_halves 4294967295 1) as (E & _ & S & _); [lia | lia |].
  split; [exact E | exact S].
Defined.

Lemma fgets_chars_spec n : forall stream chunk rest,
  fgets_chars n stream = (chunk, rest) ->
  stream = (chunk ++ rest)%string /\
  (String.length chunk <= n)%nat /\
  (n <> O -> stream <> EmptyString -> chunk <> EmptyString) /\
  (String.length rest + String.length chunk = String.length stream)%nat.
Proof.
  induction n as [|n IH]; intros stream chunk rest H; cbn [fgets_chars] in H.
  - injection H as <- <-. cbn. repeat split; try lia; congruence.
  - destruct stream as [|c stream].
    + injection H as <- <-. cbn. repeat split; try lia; congruence.
    + destruct (Ascii.eqb c newline).
      * injection H as <- <-. cbn. repeat split; try lia; discriminate.
      * destruct (fgets_chars n stream) as [chunk' rest'] eqn:E.
        injection H as <- <-.
        destruct (IH stream chunk' rest' E) as (E1 & E2 & _ & E4).
        cbn. rewrite <- E1. repeat split; try lia; discriminate.
Qed.

Lemma fgets_spec stream :
  match fgets MAX_STRING_LEN stream with
  | None => stream = EmptyString
  | Some (chunk, rest) =>
      stream = (chunk ++ rest)%string /\ chunk <> EmptyString /\
      (String.length chunk <= 249)%nat /\
      (String.length rest < String.length stream)%nat
  end.
Proof.
  unfold fgets. change (Z.to_nat (MAX_STRING_LEN - 1)) with 249%nat.
  destruct (fgets_chars 249 stream) as [chunk rest] eqn:E.
  destruct (fgets_chars_spec 249 stream chunk rest E) as (E1 & E2 & E3 & E4).
  destruct chunk as [|c chunk].
  - destruct stream; [reflexivity|].
    exfalso. apply E3; first [discriminate | reflexivity].
  - repeat split; try assumption; try discriminate. cbn in *. lia.
Qed.

Lemma append_assoc (a b c : string) :
  ((a ++ b) ++ c = a ++ (b ++ c))%string.
Proof. induction a as [|x a IH]; cbn; [reflexivity | now rewrite IH]. Qed.

Lemma read_lines_spec rounds : forall var stream,
  (String.length stream < rounds)%nat ->
  let r := read_lines rounds var stream in
  (stream = EmptyString -> r = var) /\
  (stream <> EmptyString ->
   r <> EmptyString /\ (String.length r <= 249)%nat /\
   exists before, stream = (before ++ r)%string).
Proof.
  induction rounds as [|rounds IH]; intros var stream L; [lia|].
  cbn zeta. cbn [read_lines].
  pose proof (fgets_spec stream) as F.
  destruct (fgets MAX_STRING_LEN stream) as [[chunk rest]|].
  - destruct F as (E & N & B & S).
    destruct (IH chunk rest) as [I1 I2]; [lia|].
    split; [intros ->; destruct chunk; [congruence | discriminate E]|].
    intros _. destruct rest as [|c rest].
    + rewrite I1 by reflexivity. repeat split; auto.
      exists EmptyString. rewrite E. cbn.
      clear. induction chunk as [|x chunk IH]; cbn; congruence.
    + destruct I2 as (J1 & J2 & before & J3); [discriminate|].
      repeat split; auto. exists (chunk ++ before)%string.
      rewrite append_assoc, <- J3. exact E.
  - subst stream. split; [reflexivity | congruence].
Qed.

Lemma fgets_chars_line n : forall line,
  (String.length line < n)%nat ->
  (forall a b, line <> (a ++ String newline b)%string) ->
  fgets_chars n (line ++ String newline EmptyString) =
  ((line ++ String newline EmptyString)%string, EmptyString).
Proof.
  induction n as [|n IH]; intros line L N; [lia|].
  destruct line as [|c line]; cbn [append fgets_chars].
  - rewrite Ascii.eqb_refl. reflexivity.
  - destruct (Ascii.eqb_spec c newline) as [->|D].
    + elim (N EmptyString line). reflexivity.
    + rewrite IH; [reflexivity | cbn in L; lia |].
      intros a b E. apply (N (String c a) b). cbn. now rewrite E.
Qed.

(** X14.  Asked for the system name, [syslogPrint] opens the log as
    [COURSE:2][ASSIGNMENT:1], reads the whole output of uname -a but keeps
    only what the last fgets returned, and passes that to syslog between
    pclose and closelog: a non-empty end piece of the output of at most 249
    characters - the whole output when that is a single line of up to 248
    characters and its line break.  If the command writes nothing, the
    string passed is whatever the buffer held before. *)
Theorem syslogPrint_uname_logs_the_last_line (data : option string)
    (output var0 : string) :
  exists var,
    syslogPrint data SYSLOG_UNAME output var0 =
      [Openlog "[COURSE:2][ASSIGNMENT:1]"; Popen "uname -a"; Pclose;
       Syslog LOG_DEBUG (Some var); Closelog] /\
    (output = EmptyString -> var = var0) /\
    (output <> EmptyString ->
     var <> EmptyString /\ (String.length var <= 249)%nat /\
     exists before, output = (before ++ var)%string) /\
    (forall line,
        output = (line ++ String newline EmptyString)%string ->
        (String.length line < 249)%nat ->
        (forall a b, line <> (a ++ String newline b)%string) ->
        var = output).
Proof.
  exists (read_lines (S (String.length output)) var0 output).
  destruct (read_lines_spec (S (String.length output)) var0 output) as [R1 R2];
    [lia|].
  split; [reflexivity|]. split; [exact R1|]. split; [exact R2|].
  intros line E L N. subst output. cbn [read_lines]. unfold fgets.
  change (Z.to_nat (MAX_STRING_LEN - 1)) with 249%nat.
  rewrite fgets_chars_line by assumption.
  destruct line; cbn [append]; destruct (String.length _); reflexivity.
Qed.
